(** * Selection-to-Markdown converter of [background.js]

    A shallow embedding of [getMarkdownFromSelection] and of the two
    functions nested in it, [toAbsoluteUrl] and [domToMarkdown], together
    with the final [replace(/\n{3,}/g, "\n\n").trim()] step.

    JavaScript strings are sequences of UTF-16 code units; they are
    modelled as lists of code units.  The DOM fragment handed to the
    converter is modelled as a tree of nodes.  The platform's URL parser
    ([new URL(u, base).href]) and [document.baseURI] are not part of the
    program: they are parameters of the development. *)

From Equations Require Import Equations.
From Stdlib Require Import List NArith Bool Arith Lia Ascii String.
Import ListNotations.

Local Open Scope N_scope.
Local Open Scope list_scope.

(** ** Strings *)

Module JsString.

(** A UTF-16 code unit. *)
Definition unit16 := N.

(** A JavaScript string. *)
Definition jsstring := list unit16.

(** Embedding of ASCII literals of the source. *)
Fixpoint js (s : string) : jsstring :=
  match s with
  | EmptyString => []
  | String c r => N_of_ascii c :: js r
  end.

(** The line feed character written [\n] in the source. *)
Definition LF : unit16 := 10.

Definition isLF (c : unit16) : bool := c =? LF.

(** Truthiness of a string: the empty string is the only falsy one. *)
Definition truthy (s : jsstring) : bool :=
  match s with
  | [] => false
  | _ :: _ => true
  end.

(** [String.prototype.startsWith]. *)
Fixpoint startsWith (s p : jsstring) : bool :=
  match p, s with
  | [], _ => true
  | _ :: _, [] => false
  | a :: p', b :: s' => (a =? b) && startsWith s' p'
  end.

(** The code units that [String.prototype.trim] strips: ECMAScript's
    WhiteSpace and LineTerminator productions (all of them in the BMP). *)
Definition isWhiteSpace (c : unit16) : bool :=
  (c =? 9) || (c =? 10) || (c =? 11) || (c =? 12) || (c =? 13) ||
  (c =? 32) || (c =? 160) || (c =? 5760) ||
  ((8192 <=? c) && (c <=? 8202)) ||
  (c =? 8232) || (c =? 8233) || (c =? 8239) || (c =? 8287) ||
  (c =? 12288) || (c =? 65279).

Fixpoint trimStart (s : jsstring) : jsstring :=
  match s with
  | [] => []
  | c :: t => if isWhiteSpace c then trimStart t else s
  end.

Definition trimEnd (s : jsstring) : jsstring :=
  rev (trimStart (rev s)).

(** [String.prototype.trim]. *)
Definition trim (s : jsstring) : jsstring := trimEnd (trimStart s).

(** Number of line feeds at the front of a string: how far the greedy
    quantifier of [/\n{3,}/] can run from here. *)
Fixpoint leadingLF (s : jsstring) : nat :=
  match s with
  | [] => 0%nat
  | c :: t => if isLF c then S (leadingLF t) else 0%nat
  end.

(** [s.replace(/\n{3,}/g, "\n\n")].  The global replace scans from left
    to right.  At a position where the pattern matches (a line feed
    followed by at least two more), the greedy match takes the whole run,
    two line feeds are emitted and the scan resumes after the run;
    elsewhere the code unit is copied and the scan moves one step. *)
Equations? replaceLF3 (s : jsstring) : jsstring by wf (List.length s) lt :=
  replaceLF3 [] := [];
  replaceLF3 (c :: t) with isLF c && (2 <=? leadingLF t)%nat => {
    | true := LF :: LF :: replaceLF3 (skipn (leadingLF t) t);
    | false := c :: replaceLF3 t }.
Proof.
  pose proof (List.length_skipn (leadingLF t) t). simpl. lia.
Qed.

(** The last statement of [getMarkdownFromSelection]:
    [markdown.replace(/\n{3,}/g, "\n\n").trim()]. *)
Definition finalize (raw : jsstring) : jsstring := trim (replaceLF3 raw).


(** Strict equality [===] of two strings. *)
Fixpoint streq (a b : jsstring) : bool :=
  match a, b with
  | [], [] => true
  | x :: a', y :: b' => (x =? y) && streq a' b'
  | _, _ => false
  end.

(** [String.prototype.toLowerCase], restricted to what the converter needs.
    The result is only ever compared with the ASCII tag literals of the
    [switch] in [domToMarkdown].  The letters A-Z are mapped to a-z.  A
    code unit outside ASCII is left as it is: Unicode lower-casing sends
    such a unit to units outside ASCII again, except for U+212A (to [k],
    a letter no tag literal of the [switch] has) and U+0130 (to [i]
    followed by U+0307), so it never makes a comparison succeed. *)
Definition lowerUnit (c : unit16) : unit16 :=
  if (65 <=? c) && (c <=? 90) then c + 32 else c.

Definition toLowerCase (s : jsstring) : jsstring := map lowerUnit s.

End JsString.

Import JsString.

(** ** The DOM fragment *)

Module Dom.

(** A node of the cloned selection.  [OtherNode] stands for the nodes that
    are neither text nor element (comments, processing instructions); it
    carries its [nodeType]. *)
#[local] Unset Elimination Schemes.
Inductive Node : Type :=
| TextNode (textContent : jsstring)
| ElementNode (tagName : jsstring)
              (attributes : list (jsstring * jsstring))
              (childNodes : list Node)
| OtherNode (nodeType : N).
#[local] Set Elimination Schemes.

(** [Element.getAttribute]: the value of the first attribute of that
    name, [None] for JavaScript's [null] when there is none. *)
Fixpoint getAttribute (attributes : list (jsstring * jsstring))
         (name : jsstring) : option jsstring :=
  match attributes with
  | [] => None
  | (k, v) :: rest => if streq k name then Some v else getAttribute rest name
  end.

End Dom.

Import Dom.

(** ** The converter *)

Section Converter.

(** [URL_href u base] is [new URL(u, base).href]; [None] when the
    constructor throws. *)
Variable URL_href : jsstring -> jsstring -> option jsstring.

(** [document.baseURI]. *)
Variable baseURI : jsstring.

(** [toAbsoluteUrl]; the argument is [None] when [getAttribute] gave
    [null]. *)
Definition toAbsoluteUrl (urlStr : option jsstring) : jsstring :=
  match urlStr with
  | None => []
  | Some u =>
      if negb (truthy u) then []
      else match URL_href u baseURI with
           | Some href => href
           | None => u
           end
  end.

(** The [switch (tagName)] of [domToMarkdown], once [content] holds the
    converted children. *)
Definition tagRule (tagName : jsstring)
           (attributes : list (jsstring * jsstring))
           (content : jsstring) : jsstring :=
  if streq tagName (js "b") || streq tagName (js "strong") then
    if truthy (trim content) then js " **" ++ content ++ js "** " else []
  else if streq tagName (js "i") || streq tagName (js "em") then
    if truthy (trim content) then js " *" ++ content ++ js "* " else []
  else if streq tagName (js "u") then
    js " <u>" ++ content ++ js "</u> "
  else if streq tagName (js "h1") then [LF] ++ js "# " ++ content ++ [LF]
  else if streq tagName (js "h2") then [LF] ++ js "## " ++ content ++ [LF]
  else if streq tagName (js "h3") then [LF] ++ js "### " ++ content ++ [LF]
  else if streq tagName (js "h4") then [LF] ++ js "#### " ++ content ++ [LF]
  else if streq tagName (js "a") then
    let href := getAttribute attributes (js "href") in
    let fullHref := toAbsoluteUrl href in
    if negb (truthy fullHref) || startsWith fullHref (js "javascript:")
    then content
    else js "[" ++ content ++ js "](" ++ fullHref ++ js ")"
  else if streq tagName (js "code") then
    js " `" ++ content ++ js "` "
  else if streq tagName (js "pre") then
    [LF] ++ js "```" ++ [LF] ++ content ++ [LF] ++ js "```" ++ [LF]
  else if streq tagName (js "li") then
    [LF] ++ js "- " ++ content
  else if streq tagName (js "p") || streq tagName (js "div") ||
          streq tagName (js "section") || streq tagName (js "article") then
    [LF] ++ content ++ [LF]
  else if streq tagName (js "br") then [LF]
  else if streq tagName (js "img") then
    let src := getAttribute attributes (js "src") in
    let fullSrc := toAbsoluteUrl src in
    let alt := match getAttribute attributes (js "alt") with
               | Some a => if truthy a then a else js "image"
               | None => js "image"
               end in
    if negb (truthy fullSrc) then []
    else [LF] ++ js "![" ++ alt ++ js "](" ++ fullSrc ++ js ")" ++ [LF]
  else content.

(** [domToMarkdown]. *)
Fixpoint domToMarkdown (node : Node) : jsstring :=
  match node with
  | TextNode textContent => textContent
  | ElementNode tagName attributes childNodes =>
      let tagName := toLowerCase tagName in
      let content :=
        fold_left (fun content child => content ++ domToMarkdown child)
                  childNodes [] in
      tagRule tagName attributes content
  | OtherNode _ => []
  end.

(** [getMarkdownFromSelection].  The selection is given by the cloned
    contents of its ranges; with no range the function returns [null].
    The contents of the first range are appended to a fresh [div]. *)
Definition getMarkdownFromSelection (selection : list (list Node))
  : option jsstring :=
  match selection with
  | [] => None
  | contents :: _ =>
      let container := ElementNode (js "DIV") [] contents in
      let markdown := domToMarkdown container in
      Some (finalize markdown)
  end.

End Converter.

(** ** Shapes of strings the final step is judged by *)

(** Three line feeds in a row somewhere in the string. *)
Fixpoint hasLF3 (s : jsstring) : bool :=
  match s with
  | [] => false
  | c :: t => (isLF c && (2 <=? leadingLF t)%nat) || hasLF3 t
  end.

(** The string begins, respectively ends, with a code unit that [trim]
    strips. *)
Definition startsWithWS (s : jsstring) : bool :=
  match s with
  | [] => false
  | c :: _ => isWhiteSpace c
  end.

Definition endsWithWS (s : jsstring) : bool := startsWithWS (rev s).

(** ** Induction on nodes *)

Section NodeInduction.

Variable P : Node -> Prop.
Hypothesis P_text : forall textContent, P (TextNode textContent).
Hypothesis P_element : forall tagName attributes childNodes,
    Forall P childNodes -> P (ElementNode tagName attributes childNodes).
Hypothesis P_other : forall nodeType, P (OtherNode nodeType).

Fixpoint Node_ind (node : Node) : P node :=
  match node with
  | TextNode textContent => P_text textContent
  | ElementNode tagName attributes childNodes =>
      P_element tagName attributes childNodes
        ((fix all (l : list Node) : Forall P l :=
            match l with
            | [] => Forall_nil P
            | child :: rest => Forall_cons child (Node_ind child) (all rest)
            end) childNodes)
  | OtherNode nodeType => P_other nodeType
  end.

End NodeInduction.

(** ** Vocabulary of the properties *)

(** The converted children of an element, one after the other. *)
Definition childrenContent (URL_href : jsstring -> jsstring -> option jsstring)
           (baseURI : jsstring) (childNodes : list Node) : jsstring :=
  flat_map (domToMarkdown URL_href baseURI) childNodes.

(** The tag of a heading of the given level: [h1], [h2], ... *)
Definition headingTag (level : nat) : jsstring :=
  js "h" ++ [48 + N.of_nat level].

(** The number sign [#]. *)
Definition hash : unit16 := 35.

(** The tags whose rule reads attributes of the element. *)
Definition readsAttributes (tagName : jsstring) : bool :=
  streq tagName (js "a") || streq tagName (js "img").

(** The tree with the attributes removed from every element whose rule
    does not read them.  Two trees with the same image differ at most in
    the attributes of such elements. *)
Fixpoint eraseAttributes (node : Node) : Node :=
  match node with
  | ElementNode tagName attributes childNodes =>
      ElementNode tagName
        (if readsAttributes (toLowerCase tagName) then attributes else [])
        (map eraseAttributes childNodes)
  | _ => node
  end.

(** ** A resolver to run the converter with *)

Module SimpleURL.

Definition colon : unit16 := 58.
Definition slash : unit16 := 47.

Definition isAlpha (c : unit16) : bool :=
  ((65 <=? c) && (c <=? 90)) || ((97 <=? c) && (c <=? 122)).

Definition isSchemeUnit (c : unit16) : bool :=
  isAlpha c || ((48 <=? c) && (c <=? 57)) ||
  (c =? 43) || (c =? 45) || (c =? 46).

(** What follows the scheme and its colon, when the string has one. *)
Fixpoint afterColon (s : jsstring) : option jsstring :=
  match s with
  | [] => None
  | c :: t => if c =? colon then Some t
              else if isSchemeUnit c then afterColon t else None
  end.

Definition afterScheme (s : jsstring) : option jsstring :=
  match s with
  | [] => None
  | c :: _ => if isAlpha c then afterColon s else None
  end.

Fixpoint untilSlash (s : jsstring) : jsstring :=
  match s with
  | [] => []
  | c :: t => if c =? slash then [] else c :: untilSlash t
  end.

Fixpoint fromSlash (s : jsstring) : jsstring :=
  match s with
  | [] => []
  | c :: t => if c =? slash then s else fromSlash t
  end.

(** The path up to and with its last slash. *)
Definition directory (path : jsstring) : jsstring :=
  match rev (fromSlash (rev path)) with
  | [] => [slash]
  | d => d
  end.

(** Modelled from the spec: the platform's URL resolution, which is not
    part of the program.  Only the plain cases of resolution against a
    hierarchical base are covered: a reference with a scheme stands for
    itself, a reference that begins with a slash replaces the path of the
    base, any other reference replaces the last segment of that path.
    Without a hierarchical base to resolve against, the constructor
    throws.  The converter is verified for every resolver; this one
    serves to run it on concrete documents. *)
Definition href (u base : jsstring) : option jsstring :=
  match afterScheme u with
  | Some _ => Some u
  | None =>
      match afterScheme base with
      | Some rest =>
          if startsWith rest [slash; slash] then
            let authority := untilSlash (skipn 2 rest) in
            let origin :=
              firstn (List.length base - List.length rest) base
                     ++ [slash; slash] ++ authority in
            let path := skipn (2 + List.length authority) rest in
            if startsWith u [slash] then Some (origin ++ u)
            else Some (origin ++ directory path ++ u)
          else None
      | None => None
      end
  end.

End SimpleURL.

(** ** Documents of the scenarios *)

Definition pageBase : jsstring := js "https://example.com/dir/page.html".

(** [<p>Hello <b>World</b></p>] *)
Definition helloWorld (p b : jsstring) : Node :=
  ElementNode p [] [TextNode (js "Hello ");
                    ElementNode b [] [TextNode (js "World")]].

(** [<a href="javascript:alert(1)">click</a>] *)
Definition scriptLink (a : jsstring) : Node :=
  ElementNode a [(js "href", js "javascript:alert(1)")] [TextNode (js "click")].

(** [<h2>Title</h2>] *)
Definition title (h2 : jsstring) : Node :=
  ElementNode h2 [] [TextNode (js "Title")].

(** [<img src="pic.png">] *)
Definition picture (img : jsstring) : Node :=
  ElementNode img [(js "src", js "pic.png")] [].

(** [<div class="note"><span href="/y"><a href="/x">go</a></span></div>]
    and [<div id="n1" src="s"><span><a href="/x">go</a></span></div>]:
    the same tree but for the attributes of [div] and [span]. *)
Definition goLink : Node :=
  ElementNode (js "A") [(js "href", js "/x")] [TextNode (js "go")].

Definition note1 : Node :=
  ElementNode (js "DIV") [(js "class", js "note")]
    [ElementNode (js "SPAN") [(js "href", js "/y")] [goLink]].

Definition note2 : Node :=
  ElementNode (js "DIV") [(js "id", js "n1"); (js "src", js "s")]
    [ElementNode (js "SPAN") [] [goLink]].

(** ** The helpers of the download *)

Module Download.

(** The low line that stands for a run of unsafe code units. *)
Definition underscore : unit16 := 95.

(** The character class of the pattern in [sanitizeFilename]: the less-than
    and greater-than signs, the colon, the quotation mark, the solidus and
    the reverse solidus, the vertical line, the question mark, the
    asterisk, the code units [\x00-\x1F], and [\s], which is the white
    space of [trim]. *)
Definition isUnsafe (c : unit16) : bool :=
  (c =? 60) || (c =? 62) || (c =? 58) || (c =? 34) || (c =? 47) ||
  (c =? 92) || (c =? 124) || (c =? 63) || (c =? 42) ||
  (c <=? 31) || isWhiteSpace c.

(** Where the greedy [+] of the pattern stops. *)
Fixpoint skipUnsafe (s : jsstring) : jsstring :=
  match s with
  | [] => []
  | c :: t => if isUnsafe c then skipUnsafe t else s
  end.

(** [name.replace(/[...]+/g, "_")]: a left-to-right scan in which every
    match, a whole run of unsafe code units, is replaced by one low line
    and every other code unit is copied. *)
Equations? replaceUnsafe (s : jsstring) : jsstring by wf (List.length s) lt :=
  replaceUnsafe [] := [];
  replaceUnsafe (c :: t) with isUnsafe c => {
    | true := underscore :: replaceUnsafe (skipUnsafe t);
    | false := c :: replaceUnsafe t }.
Proof.
  assert (H : forall l, (List.length (skipUnsafe l) <= List.length l)%nat).
  { induction l as [|x l IH]; cbn [skipUnsafe]; [lia|].
    destruct (isUnsafe x); simpl; lia. }
  specialize (H t). simpl. lia.
Qed.

(** [String.prototype.slice] for indices that are not negative. *)
Definition slice (s : jsstring) (start finish : nat) : jsstring :=
  skipn start (firstn finish s).

(** [sanitizeFilename]. *)
Definition sanitizeFilename (name : jsstring) : jsstring :=
  slice (replaceUnsafe name) 0 80.

(** [hostname.replace(/^www\./, "")]: the pattern is anchored and not
    global, so at most the four code units at the front go. *)
Definition stripWww (hostname : jsstring) : jsstring :=
  if startsWith hostname (js "www.") then skipn 4 hostname else hostname.

(** The record returned by [getBeijingTime]. *)
Record TimeData : Type := { full : jsstring; file : jsstring }.

(** What [chrome.downloads.download] is called with. *)
Record DownloadOptions : Type := {
  url : jsstring;
  filename : jsstring;
  conflictAction : jsstring;
  saveAs : bool
}.

(** The [info] and [tab] arguments of the click listener, with the
    fields it reads. *)
Record OnClickData : Type := {
  menuItemId : jsstring;
  selectionText : option jsstring
}.

Record Tab : Type := {
  tabId : N;
  tabUrl : option jsstring
}.

(** How [chrome.scripting.executeScript] ends: it rejects, or it resolves
    to the results of the frames, each with the value the injected
    function returned ([None] for [null] and [undefined]). *)
Inductive Injection : Type :=
| Rejected
| Resolved (results : list (option jsstring)).

(** How a run of the click listener ends: it returns at once, it throws,
    or it calls [chrome.downloads.download]. *)
Inductive Outcome : Type :=
| Ignored
| Thrown
| Downloaded (options : DownloadOptions).

(** Truthiness of a value that is a string, [null] or [undefined]. *)
Definition truthyValue (v : option jsstring) : bool :=
  match v with
  | Some s => truthy s
  | None => false
  end.

(** [v || ""] for such a value. *)
Definition orEmpty (v : option jsstring) : jsstring :=
  match v with
  | Some s => s
  | None => []
  end.

Section Helpers.

(** [URL_hostname u] is [new URL(u).hostname]; [None] when the
    constructor throws. *)
Variable URL_hostname : jsstring -> option jsstring.

(** [formatter.formatToParts(now)]: the parts of the current time, each
    with its [type] and its [value]. *)
Variable parts : list (jsstring * jsstring).

(** [new TextEncoder().encode(content)]: the bytes of a [Uint8Array]. *)
Variable TextEncoder_encode : jsstring -> list Byte.byte.

(** [btoa]; [None] when it throws. *)
Variable btoa : jsstring -> option jsstring.

(** [extractDomain]. *)
Definition extractDomain (urlStr : jsstring) : jsstring :=
  match URL_hostname urlStr with
  | Some hostname => stripWww hostname
  | None => js "unknown"
  end.

(** [getVal] of [getBeijingTime]: [parts.find(p => p.type === t).value],
    which throws when no part has that type. *)
Definition getVal (t : jsstring) : option jsstring :=
  match find (fun p => streq (fst p) t) parts with
  | Some p => Some (snd p)
  | None => None
  end.

(** [getBeijingTime]; [None] when one of the [getVal] throws. *)
Definition getBeijingTime : option TimeData :=
  match getVal (js "year"), getVal (js "month"), getVal (js "day"),
        getVal (js "hour"), getVal (js "minute"), getVal (js "second") with
  | Some year, Some month, Some day, Some hour, Some minute, Some second =>
      Some {| full := year ++ js "-" ++ month ++ js "-" ++ day ++ js " "
                      ++ hour ++ js ":" ++ minute ++ js ":" ++ second;
              file := year ++ month ++ day ++ js "-"
                      ++ hour ++ minute ++ second |}
  | _, _, _, _, _, _ => None
  end.

(** [createDataUrl]; [None] when [btoa] throws. *)
Definition createDataUrl (content : jsstring) : option jsstring :=
  let data := TextEncoder_encode content in
  let binary :=
    fold_left (fun binary b => binary ++ [Byte.to_N b]) data [] in
  match btoa binary with
  | Some base64 => Some (js "data:text/markdown;charset=utf-8;base64," ++ base64)
  | None => None
  end.

(** The content the listener saves: the result of the first frame when
    the injection resolved with a truthy one, and the text of the
    selection, or the empty string, otherwise. *)
Definition savedContent (info : OnClickData) (injection : Injection)
  : jsstring :=
  let contentMD :=
    match injection with
    | Rejected => Some []
    | Resolved [] => None
    | Resolved (result :: _) => result
    end in
  if negb (truthyValue contentMD) then orEmpty (selectionText info)
  else orEmpty contentMD.

(** The listener of [chrome.contextMenus.onClicked].  [tab] is [None]
    when the click comes with no tab: reading [tab.id] then throws inside
    the [try], and reading [tab.url] throws after it. *)
Definition onClicked (info : OnClickData) (tab : option Tab)
           (injection : Injection) : Outcome :=
  if negb (streq (menuItemId info) (js "save-selection-md")) then Ignored
  else
    match tab with
    | None => Thrown
    | Some tab =>
        let contentMD := savedContent info injection in
        let pageUrl := orEmpty (tabUrl tab) in
        match getBeijingTime with
        | None => Thrown
        | Some timeData =>
            let fileContent :=
              js "URL: [" ++ pageUrl ++ js "](" ++ pageUrl ++ js ")" ++ [LF]
                 ++ js "Saved: " ++ full timeData ++ [LF]
                 ++ [LF]
                 ++ contentMD ++ [LF] in
            let domain := extractDomain pageUrl in
            let filename :=
              sanitizeFilename domain ++ js "_" ++ file timeData ++ js ".md" in
            match createDataUrl fileContent with
            | None => Thrown
            | Some dataUrl =>
                Downloaded {| url := dataUrl;
                              filename := filename;
                              conflictAction := js "uniquify";
                              saveAs := false |}
            end
        end
    end.

End Helpers.

(** The injection into a page that allows it: the function runs in the
    top frame and its value is the one result. *)
Definition injected (URL_href : jsstring -> jsstring -> option jsstring)
           (baseURI : jsstring) (selection : list (list Node)) : Injection :=
  Resolved [getMarkdownFromSelection URL_href baseURI selection].

End Download.

Import Download.

(** ** A platform to run the helpers with *)

Module SimplePlatform.

(** Modelled from the spec: the host name of the platform's URL parser,
    which is not part of the program, for the plain case of a URL with a
    scheme and an authority: what lies between the two slashes and the
    next one.  Without a scheme the constructor throws. *)
Definition hostname (u : jsstring) : option jsstring :=
  match SimpleURL.afterScheme u with
  | Some rest =>
      if startsWith rest [SimpleURL.slash; SimpleURL.slash]
      then Some (SimpleURL.untilSlash (skipn 2 rest))
      else Some []
  | None => None
  end.

Definition isHighSurrogate (c : unit16) : bool := (55296 <=? c) && (c <=? 56319).
Definition isLowSurrogate (c : unit16) : bool := (56320 <=? c) && (c <=? 57343).

(** The code points of a string; a surrogate without its partner stands
    for U+FFFD. *)
Fixpoint codePoints (s : jsstring) : list N :=
  match s with
  | [] => []
  | c :: t =>
      if isHighSurrogate c then
        match t with
        | d :: t' =>
            if isLowSurrogate d
            then (65536 + (c - 55296) * 1024 + (d - 56320)) :: codePoints t'
            else 65533 :: codePoints t
        | [] => [65533]
        end
      else if isLowSurrogate c then 65533 :: codePoints t
      else c :: codePoints t
  end.

Definition utf8 (p : N) : list N :=
  if p <? 128 then [p]
  else if p <? 2048 then [192 + p / 64; 128 + p mod 64]
  else if p <? 65536 then
    [224 + p / 4096; 128 + (p / 64) mod 64; 128 + p mod 64]
  else [240 + p / 262144; 128 + (p / 4096) mod 64;
        128 + (p / 64) mod 64; 128 + p mod 64].

Definition toByte (n : N) : Byte.byte :=
  match Byte.of_N n with
  | Some b => b
  | None => Byte.x00
  end.

(** The UTF-8 encoding that [TextEncoder] produces. *)
Definition encode (s : jsstring) : list Byte.byte :=
  map toByte (flat_map utf8 (codePoints s)).

Definition alphabet : jsstring :=
  js "ABCDEFGHIJKLMNOPQRSTUVWXYZabcdefghijklmnopqrstuvwxyz0123456789+/".

Definition digit (n : N) : unit16 := nth (N.to_nat n) alphabet 0.

Definition pad : unit16 := 61.

(** Base64 with padding. *)
Fixpoint base64 (s : list N) : jsstring :=
  match s with
  | a :: b :: c :: t =>
      [digit (a / 4); digit ((a mod 4) * 16 + b / 16);
       digit ((b mod 16) * 4 + c / 64); digit (c mod 64)] ++ base64 t
  | [a; b] =>
      [digit (a / 4); digit ((a mod 4) * 16 + b / 16);
       digit ((b mod 16) * 4); pad]
  | [a] => [digit (a / 4); digit ((a mod 4) * 16); pad; pad]
  | [] => []
  end.

(** [btoa]: Base64 of a string whose code units are all below 256, an
    exception on any other string. *)
Definition btoa (s : jsstring) : option jsstring :=
  if forallb (fun c => c <=? 255) s then Some (base64 s) else None.

(** The parts of [2024/01/05 13:45:10] as the formatter gives them. *)
Definition parts : list (jsstring * jsstring) :=
  [(js "year", js "2024"); (js "literal", js "/");
   (js "month", js "01"); (js "literal", js "/");
   (js "day", js "05"); (js "literal", js " ");
   (js "hour", js "13"); (js "literal", js ":");
   (js "minute", js "45"); (js "literal", js ":");
   (js "second", js "10")].

End SimplePlatform.

(** ** More vocabulary, for the converter as a function of the tree *)

(** The strings that the converter hands to the resolver, in document
    order: the [href] of the [a] elements and the [src] of the [img]
    elements, when present and not empty. *)
Definition reference (v : option jsstring) : list jsstring :=
  match v with
  | Some (c :: u) => [c :: u]
  | _ => []
  end.

Fixpoint references (node : Node) : list jsstring :=
  match node with
  | ElementNode tagName attributes childNodes =>
      (if streq (toLowerCase tagName) (js "a")
       then reference (getAttribute attributes (js "href"))
       else if streq (toLowerCase tagName) (js "img")
       then reference (getAttribute attributes (js "src"))
       else [])
      ++ flat_map references childNodes
  | _ => []
  end.

(** The tree with every tag name in lower case. *)
Fixpoint lowerTags (node : Node) : Node :=
  match node with
  | ElementNode tagName attributes childNodes =>
      ElementNode (toLowerCase tagName) attributes (map lowerTags childNodes)
  | _ => node
  end.

(** [Node.normalize] of the DOM: among the children of every element,
    empty text nodes are removed and text nodes that follow one another
    are joined. *)
Fixpoint mergeText (l : list Node) : list Node :=
  match l with
  | [] => []
  | TextNode s :: rest =>
      match mergeText rest with
      | TextNode s' :: rest' => TextNode (s ++ s') :: rest'
      | merged => if truthy s then TextNode s :: merged else merged
      end
  | node :: rest => node :: mergeText rest
  end.

Fixpoint normalize (node : Node) : Node :=
  match node with
  | ElementNode tagName attributes childNodes =>
      ElementNode tagName attributes (mergeText (map normalize childNodes))
  | _ => node
  end.


(** Some code unit of the string is not white space. *)
Definition visible (s : jsstring) : bool :=
  existsb (fun c => negb (isWhiteSpace c)) s.




(** [Subseq a b]: [a] is [b] with some code units left out. *)
Inductive Subseq : jsstring -> jsstring -> Prop :=
| Subseq_nil : Subseq [] []
| Subseq_keep c a b : Subseq a b -> Subseq (c :: a) (c :: b)
| Subseq_skip c a b : Subseq a b -> Subseq a (c :: b).

(** The code units of a string that are not white space. *)
Definition ink (s : jsstring) : jsstring :=
  filter (fun c => negb (isWhiteSpace c)) s.

(** A name without unsafe code units. *)
Definition safeName (s : jsstring) : bool :=
  forallb (fun c => negb (isUnsafe c)) s.

(** The types of the parts that [getBeijingTime] reads. *)
Definition timeField (t : jsstring) : bool :=
  streq t (js "year") || streq t (js "month") || streq t (js "day") ||
  streq t (js "hour") || streq t (js "minute") || streq t (js "second").

(** Two resolvers for one document: the second knows one reference. *)
Definition onlyGo (u base : jsstring) : option jsstring :=
  if streq u (js "/x") then Some (js "https://example.com/x") else None.

(** A click on the menu entry, in a tab, over the selection
    [<p>Hello <b>World</b></p>], and the download it leads to on the
    platform above. *)
Definition sampleInfo : OnClickData :=
  {| menuItemId := js "save-selection-md";
     selectionText := Some (js "Hello World") |}.

Definition sampleTab : Tab :=
  {| tabId := 7; tabUrl := Some (js "https://www.example.com/dir/page.html") |}.

Definition sampleInjection : Injection :=
  injected SimpleURL.href pageBase [[helloWorld (js "P") (js "B")]].

Definition sampleOptions : DownloadOptions :=
  {| url := js "data:text/markdown;charset=utf-8;base64,"
            ++ SimplePlatform.base64
                 (js "URL: [https://www.example.com/dir/page.html]"
                  ++ js "(https://www.example.com/dir/page.html)" ++ [LF]
                  ++ js "Saved: 2024-01-05 13:45:10" ++ [LF; LF]
                  ++ js "Hello  **World**" ++ [LF]);
     filename := js "example.com_20240105-134510.md";
     conflictAction := js "uniquify";
     saveAs := false |}.

(** * Properties *)

(** ** Line feeds *)

Lemma isLF_eq c : isLF c = true -> c = LF.
Proof. unfold isLF. apply N.eqb_eq. Qed.

Lemma leadingLF_repeat n t :
  leadingLF (repeat LF n ++ t) = (n + leadingLF t)%nat.
Proof. induction n as [|n IH]; simpl; [reflexivity | now rewrite IH]. Qed.

Lemma leadingLF_split s :
  s = repeat LF (leadingLF s) ++ skipn (leadingLF s) s.
Proof.
  induction s as [|c t IH]; simpl; [reflexivity|].
  destruct (isLF c) eqn:E; simpl; [|reflexivity].
  apply isLF_eq in E. subst c. now rewrite <- IH.
Qed.

Lemma leadingLF_skipn s : leadingLF (skipn (leadingLF s) s) = 0%nat.
Proof.
  induction s as [|c t IH]; simpl; [reflexivity|].
  destruct (isLF c) eqn:E; simpl; [exact IH | now rewrite E].
Qed.

(** What [hasLF3] decides. *)
Lemma hasLF3_iff s :
  hasLF3 s = true <-> exists l1 l2, s = l1 ++ LF :: LF :: LF :: l2.
Proof.
  split.
  - induction s as [|c t IH]; cbn [hasLF3]; [discriminate|].
    intros H. apply orb_true_iff in H. destruct H as [H|H].
    + apply andb_true_iff in H. destruct H as [Hc Hn].
      apply isLF_eq in Hc. subst c. apply Nat.leb_le in Hn.
      exists [], (repeat LF (leadingLF t - 2) ++ skipn (leadingLF t) t).
      rewrite (leadingLF_split t) at 1.
      replace (leadingLF t) with (2 + (leadingLF t - 2))%nat at 1 by lia.
      rewrite repeat_app, <- app_assoc. reflexivity.
    + destruct (IH H) as (l1 & l2 & ->). now exists (c :: l1), l2.
  - intros (l1 & l2 & ->). induction l1 as [|a l1 IH]; simpl.
    + reflexivity.
    + rewrite IH. apply orb_true_r.
Qed.

Lemma hasLF3_app_false a b :
  hasLF3 (a ++ b) = false -> hasLF3 a = false /\ hasLF3 b = false.
Proof.
  intros H. split.
  - destruct (hasLF3 a) eqn:E; [|reflexivity].
    apply hasLF3_iff in E. destruct E as (l1 & l2 & ->).
    rewrite <- H. symmetry. apply hasLF3_iff.
    exists l1, (l2 ++ b). now rewrite <- app_assoc.
  - destruct (hasLF3 b) eqn:E; [|reflexivity].
    apply hasLF3_iff in E. destruct E as (l1 & l2 & ->).
    rewrite <- H. symmetry. apply hasLF3_iff.
    exists (a ++ l1), l2. now rewrite <- app_assoc.
Qed.

(** ** The global replace *)

Lemma replaceLF3_cons c t :
  replaceLF3 (c :: t) =
  if isLF c && (2 <=? leadingLF t)%nat
  then LF :: LF :: replaceLF3 (skipn (leadingLF t) t)
  else c :: replaceLF3 t.
Proof. simp replaceLF3. now destruct (isLF c && (2 <=? leadingLF t)%nat). Qed.

(** The replace leaves at most two line feeds at the front. *)
Lemma leadingLF_replaceLF3 s :
  leadingLF (replaceLF3 s) = Nat.min (leadingLF s) 2.
Proof.
  funelim (replaceLF3 s).
  - reflexivity.
  - apply andb_true_iff in Heq. destruct Heq as [Hc Hn].
    apply Nat.leb_le in Hn.
    cbn [leadingLF]. rewrite Hc. change (isLF LF) with true. cbv iota.
    rewrite H, leadingLF_skipn. simpl Nat.min. lia.
  - cbn [leadingLF]. rewrite H.
    destruct (isLF c); [|reflexivity].
    rewrite andb_true_l in Heq. apply Nat.leb_gt in Heq. lia.
Qed.

(** No run of three line feeds survives the replace. *)
Lemma hasLF3_replaceLF3 s : hasLF3 (replaceLF3 s) = false.
Proof.
  funelim (replaceLF3 s).
  - reflexivity.
  - cbn [hasLF3 leadingLF]. change (isLF LF) with true. cbv iota.
    rewrite H, leadingLF_replaceLF3, leadingLF_skipn. reflexivity.
  - cbn [hasLF3]. rewrite H, leadingLF_replaceLF3, orb_false_r.
    destruct (isLF c); [|reflexivity].
    rewrite andb_true_l in Heq. apply Nat.leb_gt in Heq.
    rewrite andb_true_l. apply Nat.leb_gt. lia.
Qed.

(** A string without such a run is left as it is. *)
Lemma replaceLF3_fixed s : hasLF3 s = false -> replaceLF3 s = s.
Proof.
  induction s as [|c t IH]; [reflexivity|].
  cbn [hasLF3]. intros H. apply orb_false_iff in H. destruct H as [H1 H2].
  rewrite replaceLF3_cons, H1, (IH H2). reflexivity.
Qed.

(** A maximal run of [n] line feeds in front of another code unit comes
    out as two line feeds when [n] is at least three, and as itself
    otherwise. *)
Lemma replaceLF3_run n c t :
  isLF c = false ->
  replaceLF3 (repeat LF n ++ c :: t) =
  repeat LF (if (3 <=? n)%nat then 2 else n) ++ c :: replaceLF3 t.
Proof.
  intros Hc.
  assert (H0 : leadingLF (c :: t) = 0%nat) by (cbn [leadingLF]; now rewrite Hc).
  assert (Hstep : replaceLF3 (c :: t) = c :: replaceLF3 t)
    by (rewrite replaceLF3_cons, Hc; reflexivity).
  destruct (3 <=? n)%nat eqn:E.
  - apply Nat.leb_le in E. destruct n as [|n]; [lia|].
    cbn [repeat app]. rewrite replaceLF3_cons.
    change (isLF LF) with true. rewrite andb_true_l.
    rewrite leadingLF_repeat, H0, Nat.add_0_r.
    replace (2 <=? n)%nat with true by (symmetry; apply Nat.leb_le; lia).
    rewrite skipn_app, repeat_length, Nat.sub_diag, skipn_all2
      by (rewrite repeat_length; lia).
    cbn [skipn app repeat]. now rewrite Hstep.
  - apply Nat.leb_gt in E.
    destruct n as [|[|[|n]]]; try lia; cbn [repeat app];
      rewrite ?replaceLF3_cons; cbn [leadingLF]; rewrite ?Hc;
      change (isLF LF) with true; cbn [andb Nat.leb]; try reflexivity.
    all: rewrite replaceLF3_cons, Hc; reflexivity.
Qed.

(** The same for a run that ends the string. *)
Lemma replaceLF3_run_end n :
  replaceLF3 (repeat LF n) = repeat LF (if (3 <=? n)%nat then 2 else n).
Proof.
  destruct (3 <=? n)%nat eqn:E.
  - apply Nat.leb_le in E. destruct n as [|n]; [lia|].
    cbn [repeat]. rewrite replaceLF3_cons.
    change (isLF LF) with true. rewrite andb_true_l.
    rewrite <- (app_nil_r (repeat LF n)), leadingLF_repeat.
    cbn [leadingLF]. rewrite Nat.add_0_r.
    replace (2 <=? n)%nat with true by (symmetry; apply Nat.leb_le; lia).
    rewrite skipn_all2 by (rewrite length_app, repeat_length; simpl; lia).
    reflexivity.
  - apply Nat.leb_gt in E.
    destruct n as [|[|[|n]]]; try lia; reflexivity.
Qed.

(** ** Trimming *)

(** What [startsWithWS] and [endsWithWS] decide. *)
Lemma startsWithWS_iff s :
  startsWithWS s = true <-> exists c t, s = c :: t /\ isWhiteSpace c = true.
Proof.
  destruct s as [|c t]; cbn [startsWithWS]; split.
  - discriminate.
  - intros (c & t & H & _). discriminate.
  - intros H. now exists c, t.
  - intros (c' & t' & H & Hc). now injection H as -> ->.
Qed.

Lemma endsWithWS_iff s :
  endsWithWS s = true <-> exists c t, s = t ++ [c] /\ isWhiteSpace c = true.
Proof.
  unfold endsWithWS. rewrite startsWithWS_iff. split.
  - intros (c & t & H & Hc). exists c, (rev t). split; [|exact Hc].
    rewrite <- (rev_involutive s), H. reflexivity.
  - intros (c & t & -> & Hc). exists c, (rev t). split; [|exact Hc].
    now rewrite rev_app_distr.
Qed.

Lemma trimStart_suffix s : exists w, s = w ++ trimStart s.
Proof.
  induction s as [|c t [w IH]]; [now exists []|].
  cbn [trimStart]. destruct (isWhiteSpace c).
  - exists (c :: w). cbn [app]. now rewrite <- IH.
  - now exists [].
Qed.

Lemma trimEnd_prefix s : exists w, s = trimEnd s ++ w.
Proof.
  unfold trimEnd. destruct (trimStart_suffix (rev s)) as [w H].
  exists (rev w). rewrite <- rev_app_distr, <- H. symmetry. apply rev_involutive.
Qed.

Lemma startsWithWS_trimStart s : startsWithWS (trimStart s) = false.
Proof.
  induction s as [|c t IH]; [reflexivity|].
  cbn [trimStart]. destruct (isWhiteSpace c) eqn:E; [exact IH|].
  exact E.
Qed.

Lemma endsWithWS_trimEnd s : endsWithWS (trimEnd s) = false.
Proof.
  unfold endsWithWS, trimEnd. rewrite rev_involutive.
  apply startsWithWS_trimStart.
Qed.

Lemma trimStart_fixed s : startsWithWS s = false -> trimStart s = s.
Proof. destruct s as [|c t]; [reflexivity|]. simpl. now intros ->. Qed.

Lemma trimEnd_fixed s : endsWithWS s = false -> trimEnd s = s.
Proof.
  unfold endsWithWS, trimEnd. intros H.
  rewrite (trimStart_fixed _ H). apply rev_involutive.
Qed.

(** Cutting the end of a string does not bring white space to its front. *)
Lemma startsWithWS_trimEnd s :
  startsWithWS s = false -> startsWithWS (trimEnd s) = false.
Proof.
  intros H. destruct (trimEnd_prefix s) as [w E].
  destruct (trimEnd s) as [|c t]; [reflexivity|].
  rewrite E in H. exact H.
Qed.

Lemma startsWithWS_trim s : startsWithWS (trim s) = false.
Proof. apply startsWithWS_trimEnd, startsWithWS_trimStart. Qed.

Lemma endsWithWS_trim s : endsWithWS (trim s) = false.
Proof. apply endsWithWS_trimEnd. Qed.

Lemma trim_fixed s :
  startsWithWS s = false -> endsWithWS s = false -> trim s = s.
Proof.
  intros Hs He. unfold trim. rewrite (trimStart_fixed _ Hs).
  now apply trimEnd_fixed.
Qed.

Lemma trim_idempotent s : trim (trim s) = trim s.
Proof. apply trim_fixed; [apply startsWithWS_trim | apply endsWithWS_trim]. Qed.

(** What [trim] keeps is a piece of the string, between two pieces of
    white space. *)
Lemma trim_infix s : exists w1 w2, s = w1 ++ trim s ++ w2.
Proof.
  destruct (trimStart_suffix s) as [w1 H1].
  destruct (trimEnd_prefix (trimStart s)) as [w2 H2].
  exists w1, w2. unfold trim. now rewrite <- H2.
Qed.

Lemma hasLF3_trim s : hasLF3 s = false -> hasLF3 (trim s) = false.
Proof.
  intros H. destruct (trim_infix s) as (w1 & w2 & E).
  rewrite E in H. apply hasLF3_app_false in H. destruct H as [_ H].
  apply hasLF3_app_false in H. tauto.
Qed.

(** The white space stripped by [trim] is white space indeed. *)
Lemma trimStart_strips s :
  exists w, s = w ++ trimStart s /\ forallb isWhiteSpace w = true.
Proof.
  induction s as [|c t (w & IH & Hw)]; [now exists []|].
  cbn [trimStart]. destruct (isWhiteSpace c) eqn:E.
  - exists (c :: w). cbn [app forallb]. now rewrite <- IH, E, Hw.
  - now exists [].
Qed.

(** ** The final step *)

(** C2: [finalize] is idempotent: applied to its own output, it returns
    that output. *)
Theorem finalize_idempotent (x : jsstring) :
  finalize (finalize x) = finalize x.
Proof.
  assert (H : hasLF3 (finalize x) = false)
    by apply hasLF3_trim, hasLF3_replaceLF3.
  unfold finalize at 1. rewrite (replaceLF3_fixed _ H).
  apply trim_idempotent.
Qed.

(** C3: for every input, the output of [finalize] has no three line
    feeds in a row, does not begin with white space and does not end with
    white space. *)
Theorem finalize_shape (x : jsstring) :
  hasLF3 (finalize x) = false /\
  startsWithWS (finalize x) = false /\
  endsWithWS (finalize x) = false.
Proof.
  unfold finalize. split; [|split].
  - apply hasLF3_trim, hasLF3_replaceLF3.
  - apply startsWithWS_trim.
  - apply endsWithWS_trim.
Qed.

(** ** The converter *)

Section ConverterFacts.

Variable URL_href : jsstring -> jsstring -> option jsstring.
Variable baseURI : jsstring.

#[local] Abbreviation convert := (domToMarkdown URL_href baseURI).
#[local] Abbreviation content := (childrenContent URL_href baseURI).
#[local] Abbreviation rule := (tagRule URL_href baseURI).

(** The loop over the children concatenates their conversions. *)
Lemma fold_left_content (f : Node -> jsstring) l init :
  fold_left (fun acc child => acc ++ f child) l init = init ++ flat_map f l.
Proof.
  revert init. induction l as [|x l IH]; intros init; cbn [fold_left flat_map].
  - now rewrite app_nil_r.
  - now rewrite IH, <- app_assoc.
Qed.

Lemma convert_element tagName attributes childNodes :
  convert (ElementNode tagName attributes childNodes) =
  rule (toLowerCase tagName) attributes (content childNodes).
Proof.
  cbn [domToMarkdown]. now rewrite fold_left_content.
Qed.

(** Only the lower-cased tag name matters. *)
Lemma convert_tag_case t1 t2 attributes childNodes :
  toLowerCase t1 = toLowerCase t2 ->
  convert (ElementNode t1 attributes childNodes) =
  convert (ElementNode t2 attributes childNodes).
Proof. intros H. now rewrite !convert_element, H. Qed.

(** The rules, tag by tag. *)
Lemma rule_b attributes c :
  rule (js "b") attributes c =
  if truthy (trim c) then js " **" ++ c ++ js "** " else [].
Proof. reflexivity. Qed.

Lemma rule_strong attributes c :
  rule (js "strong") attributes c =
  if truthy (trim c) then js " **" ++ c ++ js "** " else [].
Proof. reflexivity. Qed.

Lemma rule_i attributes c :
  rule (js "i") attributes c =
  if truthy (trim c) then js " *" ++ c ++ js "* " else [].
Proof. reflexivity. Qed.

Lemma rule_em attributes c :
  rule (js "em") attributes c =
  if truthy (trim c) then js " *" ++ c ++ js "* " else [].
Proof. reflexivity. Qed.

Lemma rule_heading level attributes c :
  (1 <= level <= 4)%nat ->
  rule (headingTag level) attributes c =
  [LF] ++ repeat hash level ++ js " " ++ c ++ [LF].
Proof.
  intros H.
  destruct level as [|[|[|[|[|n]]]]]; try lia; reflexivity.
Qed.

Lemma rule_a attributes c :
  rule (js "a") attributes c =
  let fullHref :=
    toAbsoluteUrl URL_href baseURI (getAttribute attributes (js "href")) in
  if negb (truthy fullHref) || startsWith fullHref (js "javascript:")
  then c
  else js "[" ++ c ++ js "](" ++ fullHref ++ js ")".
Proof. reflexivity. Qed.

Lemma rule_p attributes c : rule (js "p") attributes c = [LF] ++ c ++ [LF].
Proof. reflexivity. Qed.

Lemma rule_div attributes c : rule (js "div") attributes c = [LF] ++ c ++ [LF].
Proof. reflexivity. Qed.

Lemma rule_img attributes c :
  rule (js "img") attributes c =
  let fullSrc :=
    toAbsoluteUrl URL_href baseURI (getAttribute attributes (js "src")) in
  let alt := match getAttribute attributes (js "alt") with
             | Some (x :: a) => x :: a
             | _ => js "image"
             end in
  if negb (truthy fullSrc) then []
  else [LF] ++ js "![" ++ alt ++ js "](" ++ fullSrc ++ js ")" ++ [LF].
Proof.
  unfold tagRule.
  destruct (getAttribute attributes (js "alt")) as [[|x a]|]; reflexivity.
Qed.

(** A rule that does not read the attributes gives the same fragment
    whatever they are. *)
Lemma rule_attributes tagName a1 a2 c :
  readsAttributes tagName = false ->
  rule tagName a1 c = rule tagName a2 c.
Proof.
  unfold readsAttributes. intros H.
  apply orb_false_iff in H. destruct H as [Ha Hi].
  unfold tagRule. rewrite Ha, Hi. reflexivity.
Qed.

Lemma convert_attributes tagName a1 a2 childNodes :
  readsAttributes (toLowerCase tagName) = false ->
  convert (ElementNode tagName a1 childNodes) =
  convert (ElementNode tagName a2 childNodes).
Proof. intros H. rewrite !convert_element. now apply rule_attributes. Qed.

Lemma content_eraseAttributes childNodes :
  Forall (fun n => convert (eraseAttributes n) = convert n) childNodes ->
  content (map eraseAttributes childNodes) = content childNodes.
Proof.
  unfold childrenContent.
  induction 1 as [|x l Hx _ IH]; cbn [map flat_map]; [reflexivity|].
  now rewrite Hx, IH.
Qed.

Lemma convert_eraseAttributes node :
  convert (eraseAttributes node) = convert node.
Proof.
  induction node as [t|tagName attributes childNodes IH|k] using Node_ind;
    try reflexivity.
  cbn [eraseAttributes]. rewrite !convert_element.
  rewrite (content_eraseAttributes _ IH).
  destruct (readsAttributes (toLowerCase tagName)) eqn:E; [reflexivity|].
  now apply rule_attributes.
Qed.

End ConverterFacts.

(** ** Strings compared by the converter *)

Lemma streq_iff a b : streq a b = true <-> a = b.
Proof.
  revert b. induction a as [|x a IH]; intros [|y b]; cbn [streq];
    try (split; [discriminate | discriminate]); [tauto|].
  rewrite andb_true_iff, N.eqb_eq, IH. split.
  - now intros [-> ->].
  - intros E. injection E as -> ->. tauto.
Qed.

(** The tags whose rule does not read attributes are the tags other than
    [a] and [img]. *)
Lemma readsAttributes_false tagName :
  readsAttributes tagName = false <->
  tagName <> js "a" /\ tagName <> js "img".
Proof.
  unfold readsAttributes. rewrite orb_false_iff.
  rewrite <- !not_true_iff_false, !streq_iff. tauto.
Qed.

(** Unfolds the conversion of the elements of a concrete tree down to
    the rules of their tags. *)
Ltac convert_elements :=
  repeat (progress (rewrite ?convert_element;
                    unfold childrenContent; cbn [flat_map])).

(** ** The converter at work *)

Example link_scenario :
  domToMarkdown SimpleURL.href pageBase goLink = js "[go](https://example.com/x)".
Proof. vm_compute. reflexivity. Qed.

Example empty_div URL_href baseURI :
  domToMarkdown URL_href baseURI (ElementNode (js "DIV") [] []) = [LF; LF].
Proof. reflexivity. Qed.

Example comment_node URL_href baseURI :
  domToMarkdown URL_href baseURI
    (ElementNode (js "SPAN") [] [TextNode (js "a"); OtherNode 8; TextNode (js "b")])
  = js "ab".
Proof. reflexivity. Qed.

Example pre_with_inline URL_href baseURI :
  domToMarkdown URL_href baseURI
    (ElementNode (js "PRE") [] [ElementNode (js "EM") [] [TextNode (js "x")]])
  = [LF] ++ js "```" ++ [LF] ++ js " *x* " ++ [LF] ++ js "```" ++ [LF].
Proof. reflexivity. Qed.

Example nested_blocks URL_href baseURI :
  getMarkdownFromSelection URL_href baseURI
    [[ElementNode (js "DIV") [] [ElementNode (js "P") [] [TextNode (js "one")]];
      ElementNode (js "DIV") [] [ElementNode (js "P") [] [TextNode (js "two")]]]]
  = Some (js "one" ++ [LF; LF] ++ js "two").
Proof. vm_compute. reflexivity. Qed.

Example no_range URL_href baseURI :
  getMarkdownFromSelection URL_href baseURI [] = None.
Proof. reflexivity. Qed.

(** ** The rules of the tags and the scenarios *)

(** C1, as the code has it: for every resolver and base URL, converting
    [<p>Hello <b>World</b></p>] and applying [finalize] yields
    ["Hello  **World**"], with two spaces between the words: the space
    that ends the text node and the space that the rule of [b] puts in
    front.  The same holds for the whole of [getMarkdownFromSelection] on
    a selection whose first range holds that element. *)
Theorem hello_world_finalized URL_href baseURI p b :
  toLowerCase p = js "p" ->
  toLowerCase b = js "b" ->
  finalize (domToMarkdown URL_href baseURI (helloWorld p b))
  = js "Hello  **World**" /\
  getMarkdownFromSelection URL_href baseURI [[helloWorld p b]]
  = Some (js "Hello  **World**").
Proof.
  intros Hp Hb. unfold getMarkdownFromSelection, helloWorld.
  convert_elements. rewrite Hp, Hb. split; vm_compute; reflexivity.
Qed.

Lemma hello_world_finalized_witness :
  toLowerCase (js "P") = js "p" /\
  toLowerCase (js "B") = js "b" /\
  finalize (domToMarkdown SimpleURL.href pageBase (helloWorld (js "P") (js "B")))
  = js "Hello  **World**" /\
  getMarkdownFromSelection SimpleURL.href pageBase
    [[helloWorld (js "P") (js "B")]]
  = Some (js "Hello  **World**").
Proof.
  split; [reflexivity|]. split; [reflexivity|].
  apply (hello_world_finalized SimpleURL.href pageBase (js "P") (js "B"));
    reflexivity.
Defined.

(** C1 with a single space, as the scenario of the specification writes
    the result, does not hold: the converter does not produce
    ["Hello **World**"]. *)
Lemma hello_world_single_space_refuted :
  finalize (domToMarkdown SimpleURL.href pageBase (helloWorld (js "p") (js "b")))
  <> js "Hello **World**".
Proof. vm_compute. discriminate. Qed.

(** C4: an element whose tag is [a] converts to the converted children
    alone when the resolved [href] is empty or begins with [javascript:],
    and to [[content](fullHref)] otherwise.  With a resolver that keeps
    the scheme of [javascript:alert(1)] when it accepts that string,
    [<a href="javascript:alert(1)">click</a>] converts to ["click"]. *)
Theorem link_rule URL_href baseURI a attributes childNodes :
  toLowerCase a = js "a" ->
  (forall h, URL_href (js "javascript:alert(1)") baseURI = Some h ->
             startsWith h (js "javascript:") = true) ->
  let content := childrenContent URL_href baseURI childNodes in
  let fullHref :=
    toAbsoluteUrl URL_href baseURI (getAttribute attributes (js "href")) in
  domToMarkdown URL_href baseURI (ElementNode a attributes childNodes)
  = (if negb (truthy fullHref) || startsWith fullHref (js "javascript:")
     then content
     else js "[" ++ content ++ js "](" ++ fullHref ++ js ")") /\
  domToMarkdown URL_href baseURI (scriptLink a) = js "click".
Proof.
  intros Ha Hjs content fullHref. split.
  - rewrite convert_element, Ha. apply rule_a.
  - unfold scriptLink. rewrite convert_element, Ha, rule_a.
    change (getAttribute [(js "href", js "javascript:alert(1)")] (js "href"))
      with (Some (js "javascript:alert(1)")).
    cbv zeta. unfold toAbsoluteUrl.
    change (negb (truthy (js "javascript:alert(1)"))) with false. cbv iota.
    destruct (URL_href (js "javascript:alert(1)") baseURI) as [h|].
    + rewrite (Hjs h eq_refl), orb_true_r. reflexivity.
    + reflexivity.
Qed.

Lemma link_rule_witness :
  toLowerCase (js "A") = js "a" /\
  (forall h, SimpleURL.href (js "javascript:alert(1)") pageBase = Some h ->
             startsWith h (js "javascript:") = true) /\
  domToMarkdown SimpleURL.href pageBase
    (ElementNode (js "A") [(js "href", js "/x")] [TextNode (js "go")])
  = js "[go](https://example.com/x)" /\
  domToMarkdown SimpleURL.href pageBase (scriptLink (js "A")) = js "click".
Proof.
  assert (Hjs : forall h,
             SimpleURL.href (js "javascript:alert(1)") pageBase = Some h ->
             startsWith h (js "javascript:") = true).
  { intros h H. vm_compute in H. injection H as <-. reflexivity. }
  split; [reflexivity|]. split; [exact Hjs|].
  exact (link_rule SimpleURL.href pageBase (js "A") [(js "href", js "/x")]
                   [TextNode (js "go")] eq_refl Hjs).
Defined.

(** C5: [toAbsoluteUrl] returns a string in every case: the empty string
    for an empty or absent argument, and the argument itself when the
    resolver throws on it. *)
Theorem toAbsoluteUrl_fallback URL_href baseURI urlStr :
  URL_href urlStr baseURI = None ->
  toAbsoluteUrl URL_href baseURI (Some []) = [] /\
  toAbsoluteUrl URL_href baseURI None = [] /\
  toAbsoluteUrl URL_href baseURI (Some urlStr) = urlStr.
Proof.
  intros H. split; [reflexivity|]. split; [reflexivity|].
  unfold toAbsoluteUrl. destruct urlStr as [|c t]; [reflexivity|].
  cbn [truthy negb]. now rewrite H.
Qed.

Lemma toAbsoluteUrl_fallback_witness :
  SimpleURL.href (js "pic.png") (js "not a base") = None /\
  toAbsoluteUrl SimpleURL.href (js "not a base") (Some []) = [] /\
  toAbsoluteUrl SimpleURL.href (js "not a base") None = [] /\
  toAbsoluteUrl SimpleURL.href (js "not a base") (Some (js "pic.png"))
  = js "pic.png".
Proof.
  split; [reflexivity|].
  apply (toAbsoluteUrl_fallback SimpleURL.href (js "not a base") (js "pic.png")).
  reflexivity.
Defined.

(** C6: a heading of level 1 to 4 converts to a line feed, as many number
    signs as its level, a space, the converted children and a line feed;
    [<h2>Title</h2>] converted and finalized is ["## Title"]. *)
Theorem heading_rule URL_href baseURI level h h2 attributes childNodes :
  (1 <= level <= 4)%nat ->
  toLowerCase h = headingTag level ->
  toLowerCase h2 = js "h2" ->
  domToMarkdown URL_href baseURI (ElementNode h attributes childNodes)
  = [LF] ++ repeat hash level ++ js " "
         ++ childrenContent URL_href baseURI childNodes ++ [LF] /\
  finalize (domToMarkdown URL_href baseURI (title h2)) = js "## Title".
Proof.
  intros Hl Hh Hh2. split.
  - rewrite convert_element, Hh. now apply rule_heading.
  - unfold title. convert_elements. rewrite Hh2. vm_compute. reflexivity.
Qed.

Lemma heading_rule_witness :
  (1 <= 3 <= 4)%nat /\
  toLowerCase (js "H3") = headingTag 3 /\
  toLowerCase (js "H2") = js "h2" /\
  domToMarkdown SimpleURL.href pageBase
    (ElementNode (js "H3") [] [TextNode (js "Notes")])
  = [LF] ++ repeat hash 3 ++ js " "
         ++ childrenContent SimpleURL.href pageBase [TextNode (js "Notes")]
         ++ [LF] /\
  finalize (domToMarkdown SimpleURL.href pageBase (title (js "H2")))
  = js "## Title".
Proof.
  split; [lia|]. split; [reflexivity|]. split; [reflexivity|].
  apply (heading_rule SimpleURL.href pageBase 3 (js "H3") (js "H2") []
                      [TextNode (js "Notes")]);
    [lia | reflexivity | reflexivity].
Defined.

(** C7: an element whose tag is [img] converts to the empty string when
    the resolved [src] is empty, and otherwise to a line feed,
    [![alt](fullSrc)] and a line feed, where [alt] is the [alt] attribute
    or, when that is absent or empty, the word [image]; the children do
    not appear.  With a resolver that sends [pic.png] against
    [https://example.com/dir/page.html] to
    [https://example.com/dir/pic.png], [<img src="pic.png">] converted and
    finalized is [![image](https://example.com/dir/pic.png)]. *)
Theorem image_rule URL_href baseURI img attributes childNodes :
  toLowerCase img = js "img" ->
  URL_href (js "pic.png") pageBase = Some (js "https://example.com/dir/pic.png") ->
  let fullSrc :=
    toAbsoluteUrl URL_href baseURI (getAttribute attributes (js "src")) in
  let alt := match getAttribute attributes (js "alt") with
             | Some (x :: a) => x :: a
             | _ => js "image"
             end in
  domToMarkdown URL_href baseURI (ElementNode img attributes childNodes)
  = (if negb (truthy fullSrc) then []
     else [LF] ++ js "![" ++ alt ++ js "](" ++ fullSrc ++ js ")" ++ [LF]) /\
  finalize (domToMarkdown URL_href pageBase (picture img))
  = js "![image](https://example.com/dir/pic.png)".
Proof.
  intros Hi Hpic fullSrc alt. split.
  - rewrite convert_element, Hi. apply rule_img.
  - unfold picture. rewrite convert_element, Hi, rule_img.
    change (getAttribute [(js "src", js "pic.png")] (js "src"))
      with (Some (js "pic.png")).
    change (getAttribute [(js "src", js "pic.png")] (js "alt"))
      with (@None jsstring).
    cbv zeta. unfold toAbsoluteUrl.
    change (negb (truthy (js "pic.png"))) with false. cbv iota.
    rewrite Hpic. vm_compute. reflexivity.
Qed.

Lemma image_rule_witness :
  toLowerCase (js "IMG") = js "img" /\
  SimpleURL.href (js "pic.png") pageBase
  = Some (js "https://example.com/dir/pic.png") /\
  domToMarkdown SimpleURL.href pageBase
    (ElementNode (js "IMG") [(js "alt", js "logo"); (js "src", js "/logo.svg")]
                 [TextNode (js "ignored")])
  = [LF] ++ js "![logo](https://example.com/logo.svg)" ++ [LF] /\
  finalize (domToMarkdown SimpleURL.href pageBase (picture (js "IMG")))
  = js "![image](https://example.com/dir/pic.png)".
Proof.
  split; [reflexivity|]. split; [reflexivity|].
  exact (image_rule SimpleURL.href pageBase (js "IMG")
           [(js "alt", js "logo"); (js "src", js "/logo.svg")]
           [TextNode (js "ignored")] eq_refl eq_refl).
Defined.

(** C8: an element whose tag is [b] or [strong] converts to its converted
    children between [ **] and [** ] when these, trimmed, are not empty,
    and to the empty string otherwise; an empty [<strong></strong>]
    converts to the empty string. *)
Theorem bold_rule URL_href baseURI tagName attributes childNodes :
  toLowerCase tagName = js "b" \/ toLowerCase tagName = js "strong" ->
  let content := childrenContent URL_href baseURI childNodes in
  domToMarkdown URL_href baseURI (ElementNode tagName attributes childNodes)
  = (if truthy (trim content) then js " **" ++ content ++ js "** " else []) /\
  domToMarkdown URL_href baseURI (ElementNode tagName attributes []) = [].
Proof.
  intros H content.
  rewrite !convert_element.
  destruct H as [-> | ->]; split; reflexivity.
Qed.

Lemma bold_rule_witness :
  (toLowerCase (js "STRONG") = js "b" \/
   toLowerCase (js "STRONG") = js "strong") /\
  domToMarkdown SimpleURL.href pageBase
    (ElementNode (js "STRONG") [] [TextNode (js "very"); TextNode (js " ")])
  = js " **very ** " /\
  domToMarkdown SimpleURL.href pageBase (ElementNode (js "STRONG") [] []) = [].
Proof.
  split; [right; reflexivity|].
  apply (bold_rule SimpleURL.href pageBase (js "STRONG") []
                   [TextNode (js "very"); TextNode (js " ")]).
  right. reflexivity.
Defined.

(** C9: with the same attributes and children, an element [b] converts as
    an element [strong] does, and an element [i] as an element [em]
    does. *)
Theorem tag_synonyms URL_href baseURI b strong i em attributes childNodes :
  toLowerCase b = js "b" ->
  toLowerCase strong = js "strong" ->
  toLowerCase i = js "i" ->
  toLowerCase em = js "em" ->
  domToMarkdown URL_href baseURI (ElementNode b attributes childNodes)
  = domToMarkdown URL_href baseURI (ElementNode strong attributes childNodes) /\
  domToMarkdown URL_href baseURI (ElementNode i attributes childNodes)
  = domToMarkdown URL_href baseURI (ElementNode em attributes childNodes).
Proof.
  intros Hb Hs Hi He. rewrite !convert_element, Hb, Hs, Hi, He.
  now rewrite rule_b, rule_strong, rule_i, rule_em.
Qed.

Lemma tag_synonyms_witness :
  toLowerCase (js "b") = js "b" /\
  toLowerCase (js "strong") = js "strong" /\
  toLowerCase (js "i") = js "i" /\
  toLowerCase (js "em") = js "em" /\
  domToMarkdown SimpleURL.href pageBase
    (ElementNode (js "b") [(js "class", js "x")] [TextNode (js "t")])
  = domToMarkdown SimpleURL.href pageBase
      (ElementNode (js "strong") [(js "class", js "x")] [TextNode (js "t")]) /\
  domToMarkdown SimpleURL.href pageBase
    (ElementNode (js "i") [(js "class", js "x")] [TextNode (js "t")])
  = domToMarkdown SimpleURL.href pageBase
      (ElementNode (js "em") [(js "class", js "x")] [TextNode (js "t")]).
Proof.
  repeat (split; [reflexivity|]).
  apply (tag_synonyms SimpleURL.href pageBase (js "b") (js "strong")
                      (js "i") (js "em")); reflexivity.
Defined.

(** C10: two trees that differ only in the attributes of elements whose
    tag is neither [a] nor [img] convert to the same string. *)
Theorem attributes_noninterference URL_href baseURI node1 node2 :
  eraseAttributes node1 = eraseAttributes node2 ->
  domToMarkdown URL_href baseURI node1 = domToMarkdown URL_href baseURI node2.
Proof.
  intros H.
  rewrite <- (convert_eraseAttributes URL_href baseURI node1), H.
  apply convert_eraseAttributes.
Qed.

Lemma attributes_noninterference_witness :
  eraseAttributes note1 = eraseAttributes note2 /\
  domToMarkdown SimpleURL.href pageBase note1
  = domToMarkdown SimpleURL.href pageBase note2.
Proof.
  split; [reflexivity|].
  apply (attributes_noninterference SimpleURL.href pageBase note1 note2).
  reflexivity.
Defined.


(** * Further properties *)

(** ** The two steps of the final statement *)

Lemma isLF_isWhiteSpace c : isLF c = true -> isWhiteSpace c = true.
Proof. intros H. apply isLF_eq in H. now subst c. Qed.

Lemma leadingLF_no_WS s : startsWithWS s = false -> leadingLF s = 0%nat.
Proof.
  destruct s as [|c t]; [reflexivity|]. cbn [startsWithWS leadingLF].
  intros H. destruct (isLF c) eqn:E; [|reflexivity].
  apply isLF_isWhiteSpace in E. congruence.
Qed.

Lemma leadingLF_length s : (leadingLF s <= List.length s)%nat.
Proof.
  induction s as [|c t IH]; cbn [leadingLF List.length]; [lia|].
  destruct (isLF c); lia.
Qed.

Lemma leadingLF_app a b :
  leadingLF b = 0%nat -> leadingLF (a ++ b) = leadingLF a.
Proof.
  intros Hb. induction a as [|c t IH]; cbn [app leadingLF]; [exact Hb|].
  now rewrite IH.
Qed.

(** Induction along the scan of the replace. *)
Lemma replaceLF3_scan (P : list N -> Prop) :
  P [] ->
  (forall c t, isLF c && (2 <=? leadingLF t)%nat = true ->
               P (skipn (leadingLF t) t) -> P (c :: t)) ->
  (forall c t, isLF c && (2 <=? leadingLF t)%nat = false ->
               P t -> P (c :: t)) ->
  forall s : list N, P s.
Proof.
  intros Hnil Hrun Hcopy s.
  assert (H : forall n s, (List.length s < n)%nat -> P s).
  { clear s. induction n as [|n IH]; intros s Hs; [lia|].
    destruct s as [|c t]; [exact Hnil|].
    cbn [List.length] in Hs.
    destruct (isLF c && (2 <=? leadingLF t)%nat) eqn:E.
    - apply Hrun; [exact E|]. apply IH.
      rewrite List.length_skipn. unfold jsstring, unit16 in *. lia.
    - apply Hcopy; [exact E|]. apply IH. lia. }
  apply (H (S (List.length s))). lia.
Qed.

(** The replace works on the two sides of a place where no run of line
    feeds goes on. *)
Lemma replaceLF3_app a b :
  leadingLF b = 0%nat -> replaceLF3 (a ++ b) = replaceLF3 a ++ replaceLF3 b.
Proof.
  intros Hb. induction a as [|c t E IH|c t E IH] using replaceLF3_scan.
  - reflexivity.
  - cbn [app]. rewrite !replaceLF3_cons, (leadingLF_app _ _ Hb), E.
    rewrite skipn_app.
    replace (leadingLF t - List.length t)%nat with 0%nat
      by (pose proof (leadingLF_length t); lia).
    cbn [skipn]. rewrite IH. reflexivity.
  - cbn [app]. rewrite !replaceLF3_cons, (leadingLF_app _ _ Hb), E.
    rewrite IH. reflexivity.
Qed.

(** The replace brings in no code unit that the string does not have. *)
Lemma replaceLF3_In s x : In x (replaceLF3 s) -> In x s.
Proof.
  induction s as [|c t E IH|c t E IH] using replaceLF3_scan;
    rewrite ?replaceLF3_cons, ?E; intros Hx.
  - exact Hx.
  - apply andb_true_iff in E. destruct E as [Hc _].
    apply isLF_eq in Hc. subst c.
    destruct Hx as [Hx|[Hx|Hx]]; [now left | now left |].
    right. apply IH in Hx.
    rewrite (leadingLF_split t). apply in_or_app. now right.
  - destruct Hx as [Hx|Hx]; [now left|]. right. now apply IH.
Qed.

Lemma replaceLF3_allWS w :
  forallb isWhiteSpace w = true -> forallb isWhiteSpace (replaceLF3 w) = true.
Proof.
  rewrite !forallb_forall. intros H x Hx. apply H. now apply replaceLF3_In.
Qed.

Lemma trimStart_allWS w s :
  forallb isWhiteSpace w = true -> trimStart (w ++ s) = trimStart s.
Proof.
  induction w as [|c w IH]; cbn [forallb app trimStart]; [reflexivity|].
  intros H. apply andb_true_iff in H. destruct H as [Hc Hw].
  rewrite Hc. now apply IH.
Qed.

Lemma forallb_rev {A} (f : A -> bool) l : forallb f (rev l) = forallb f l.
Proof.
  induction l as [|x l IH]; [reflexivity|].
  cbn [rev forallb]. rewrite forallb_app, IH. cbn [forallb].
  rewrite andb_true_r. apply andb_comm.
Qed.

Lemma trimEnd_allWS s w :
  forallb isWhiteSpace w = true -> trimEnd (s ++ w) = trimEnd s.
Proof.
  intros H. unfold trimEnd. rewrite rev_app_distr, trimStart_allWS; [reflexivity|].
  now rewrite forallb_rev.
Qed.

Lemma trimEnd_strips s :
  exists w, s = trimEnd s ++ w /\ forallb isWhiteSpace w = true.
Proof.
  unfold trimEnd. destruct (trimStart_strips (rev s)) as (w & H & Hw).
  exists (rev w). split.
  - rewrite <- rev_app_distr, <- H. symmetry. apply rev_involutive.
  - now rewrite forallb_rev.
Qed.

Lemma startsWithWS_replaceLF3 s :
  startsWithWS s = false -> startsWithWS (replaceLF3 s) = false.
Proof.
  destruct s as [|c t]; [reflexivity|]. cbn [startsWithWS]. intros H.
  rewrite replaceLF3_cons.
  destruct (isLF c) eqn:E; [apply isLF_isWhiteSpace in E; congruence|].
  exact H.
Qed.

(** Trimming the front and replacing can be done in either order. *)
Lemma trimStart_replaceLF3 s :
  trimStart (replaceLF3 s) = replaceLF3 (trimStart s).
Proof.
  destruct (trimStart_strips s) as (w & E & Hw).
  pose proof (startsWithWS_trimStart s) as Hr.
  rewrite E at 1.
  rewrite replaceLF3_app by now apply leadingLF_no_WS.
  rewrite trimStart_allWS by now apply replaceLF3_allWS.
  apply trimStart_fixed. now apply startsWithWS_replaceLF3.
Qed.

Lemma endsWithWS_snoc s x : endsWithWS (s ++ [x]) = isWhiteSpace x.
Proof. unfold endsWithWS. now rewrite rev_app_distr. Qed.

(** And so can trimming the end and replacing. *)
Lemma trimEnd_replaceLF3 s :
  trimEnd (replaceLF3 s) = replaceLF3 (trimEnd s).
Proof.
  destruct (trimEnd_strips s) as (w & E & Hw).
  pose proof (endsWithWS_trimEnd s) as Hr.
  rewrite E at 1. clear E.
  destruct (trimEnd s) as [|y body] using rev_ind.
  - cbn [app]. unfold trimEnd.
    rewrite <- (app_nil_r (rev (replaceLF3 w))), trimStart_allWS;
      [reflexivity|].
    rewrite forallb_rev. now apply replaceLF3_allWS.
  - clear IHbody. rewrite endsWithWS_snoc in Hr.
    assert (Hy : isLF y = false).
    { destruct (isLF y) eqn:Ey; [apply isLF_isWhiteSpace in Ey; congruence|].
      reflexivity. }
    rewrite <- app_assoc. cbn [app].
    assert (L0 : forall r, leadingLF (y :: r) = 0%nat)
      by (intros r; cbn [leadingLF]; now rewrite Hy).
    rewrite !replaceLF3_app by apply L0.
    rewrite !replaceLF3_cons, Hy. cbn [andb].
    change (replaceLF3 []) with (@nil unit16).
    change (y :: replaceLF3 w) with ([y] ++ replaceLF3 w).
    rewrite app_assoc, trimEnd_allWS by now apply replaceLF3_allWS.
    apply trimEnd_fixed. now rewrite endsWithWS_snoc.
Qed.

Lemma trim_replaceLF3 s : trim (replaceLF3 s) = replaceLF3 (trim s).
Proof. unfold trim. now rewrite trimStart_replaceLF3, trimEnd_replaceLF3. Qed.

(** X1: the two steps of the final statement can be done in either
    order: replacing the runs of line feeds in the trimmed string gives
    the same result as trimming after the replace. *)
Theorem finalize_trim_first (raw : jsstring) :
  finalize raw = replaceLF3 (trim raw).
Proof. apply trim_replaceLF3. Qed.

(** ** What the final statement deletes *)

Lemma Subseq_refl s : Subseq s s.
Proof. induction s as [|c s IH]; [constructor | now constructor]. Qed.

Lemma Subseq_app a a' b b' :
  Subseq a a' -> Subseq b b' -> Subseq (a ++ b) (a' ++ b').
Proof.
  intros Ha Hb. induction Ha as [|c a a' _ IH|c a a' _ IH]; cbn [app].
  - exact Hb.
  - now constructor.
  - now constructor.
Qed.

Lemma Subseq_nil_l s : Subseq [] s.
Proof. induction s as [|c s IH]; [constructor | now constructor]. Qed.

Lemma Subseq_trans a b c : Subseq a b -> Subseq b c -> Subseq a c.
Proof.
  intros Hab Hbc. revert a Hab.
  induction Hbc as [|x b c _ IH|x b c _ IH]; intros a Hab.
  - exact Hab.
  - inversion Hab; subst.
    + constructor. now apply IH.
    + apply Subseq_skip. now apply IH.
  - apply Subseq_skip. now apply IH.
Qed.

Lemma Subseq_length a b : Subseq a b -> (List.length a <= List.length b)%nat.
Proof. induction 1; cbn [List.length]; lia. Qed.

(** A string is wrapped: the wrapped string has it as a subsequence. *)
Lemma Subseq_wrap pre s post : Subseq s (pre ++ s ++ post).
Proof.
  rewrite <- (app_nil_l s) at 1. apply Subseq_app; [apply Subseq_nil_l|].
  rewrite <- (app_nil_r s) at 1. apply Subseq_app;
    [apply Subseq_refl | apply Subseq_nil_l].
Qed.

Lemma Subseq_suffix pre s : Subseq s (pre ++ s).
Proof.
  rewrite <- (app_nil_l s) at 1.
  apply Subseq_app; [apply Subseq_nil_l | apply Subseq_refl].
Qed.

Lemma Subseq_replaceLF3 s : Subseq (replaceLF3 s) s.
Proof.
  induction s as [|c t E IH|c t E IH] using replaceLF3_scan;
    rewrite ?replaceLF3_cons, ?E.
  - constructor.
  - apply andb_true_iff in E. destruct E as [Hc Hn].
    apply isLF_eq in Hc. subst c. apply Nat.leb_le in Hn.
    constructor.
    pose proof (leadingLF_split t) as Et.
    remember (skipn (leadingLF t) t) as r eqn:Er. clear Er.
    destruct (leadingLF t) as [|n]; [lia|].
    rewrite Et. cbn [repeat app]. constructor.
    apply (Subseq_trans _ _ _ IH). apply Subseq_suffix.
  - constructor. exact IH.
Qed.

Lemma Subseq_trim s : Subseq (trim s) s.
Proof.
  destruct (trim_infix s) as (w1 & w2 & E). rewrite E at 2.
  apply Subseq_wrap.
Qed.

Lemma ink_app a b : ink (a ++ b) = ink a ++ ink b.
Proof. apply filter_app. Qed.

Lemma ink_allWS w : forallb isWhiteSpace w = true -> ink w = [].
Proof.
  induction w as [|c w IH]; [reflexivity|]. cbn [forallb ink filter].
  intros H. apply andb_true_iff in H. destruct H as [Hc Hw].
  rewrite Hc. cbn [negb]. now apply IH.
Qed.

Lemma ink_repeat_LF n : ink (repeat LF n) = [].
Proof. induction n as [|n IH]; [reflexivity | exact IH]. Qed.

Lemma ink_replaceLF3 s : ink (replaceLF3 s) = ink s.
Proof.
  induction s as [|c t E IH|c t E IH] using replaceLF3_scan;
    rewrite ?replaceLF3_cons, ?E.
  - reflexivity.
  - apply andb_true_iff in E. destruct E as [Hc _].
    apply isLF_eq in Hc. subst c.
    change (ink (LF :: LF :: ?r)) with (ink r).
    change (ink (LF :: t)) with (ink t).
    rewrite IH. pose proof (leadingLF_split t) as Et.
    remember (skipn (leadingLF t) t) as r eqn:Er. clear Er.
    rewrite Et. now rewrite ink_app, ink_repeat_LF.
  - unfold ink in *. cbn [filter]. now rewrite IH.
Qed.

Lemma ink_trim s : ink (trim s) = ink s.
Proof.
  unfold trim.
  destruct (trimStart_strips s) as (w1 & E1 & H1).
  destruct (trimEnd_strips (trimStart s)) as (w2 & E2 & H2).
  rewrite E1 at 2. rewrite E2 at 2.
  rewrite !ink_app, (ink_allWS _ H1), (ink_allWS _ H2), app_nil_r.
  reflexivity.
Qed.

Lemma ink_finalize s : ink (finalize s) = ink s.
Proof. unfold finalize. now rewrite ink_trim, ink_replaceLF3. Qed.

(** X2: the final statement only deletes white space: its result is the
    raw string with some code units left out, and the code units that are
    not white space are all kept, in their order. *)
Theorem finalize_deletes_white_space (raw : jsstring) :
  Subseq (finalize raw) raw /\ ink (finalize raw) = ink raw.
Proof.
  split; [|apply ink_finalize].
  unfold finalize. apply (Subseq_trans _ (replaceLF3 raw));
    [apply Subseq_trim | apply Subseq_replaceLF3].
Qed.

(** X3: the strings that the final statement leaves as they are are the
    strings with no three line feeds in a row and no white space at
    either end. *)
Theorem finalize_fixed_points (s : jsstring) :
  finalize s = s <->
  hasLF3 s = false /\ startsWithWS s = false /\ endsWithWS s = false.
Proof.
  split.
  - intros H. rewrite <- H. unfold finalize. split; [|split].
    + apply hasLF3_trim, hasLF3_replaceLF3.
    + apply startsWithWS_trim.
    + apply endsWithWS_trim.
  - intros (H3 & Hs & He). unfold finalize.
    rewrite (replaceLF3_fixed _ H3). now apply trim_fixed.
Qed.

(** The result is empty exactly when the raw string is blank. *)
Lemma finalize_empty s : finalize s = [] <-> visible s = false.
Proof.
  assert (V : forall r, visible r = false <-> ink r = []).
  { induction r as [|c r IH]; [now split|].
    unfold visible, ink in *. cbn [existsb filter].
    destruct (isWhiteSpace c); cbn [negb orb]; [exact IH|].
    split; discriminate. }
  rewrite V, <- ink_finalize. split.
  - now intros ->.
  - intros H. pose proof (startsWithWS_trim (replaceLF3 s)) as Hs.
    fold (finalize s) in Hs.
    destruct (finalize s) as [|c r]; [reflexivity|].
    cbn [startsWithWS] in Hs. unfold ink in H. cbn [filter] in H.
    rewrite Hs in H. discriminate.
Qed.

(** ** The container of the selection *)

Lemma trimStart_allWS_nil w : forallb isWhiteSpace w = true -> trimStart w = [].
Proof.
  intros H. rewrite <- (app_nil_r w). now rewrite trimStart_allWS.
Qed.

(** White space around a string does not count for [trim]. *)
Lemma trim_allWS w1 s w2 :
  forallb isWhiteSpace w1 = true -> forallb isWhiteSpace w2 = true ->
  trim (w1 ++ s ++ w2) = trim s.
Proof.
  intros H1 H2. unfold trim. rewrite (trimStart_allWS _ _ H1).
  destruct (trimStart_strips s) as (w & E & Hw).
  pose proof (startsWithWS_trimStart s) as Hr.
  rewrite E at 1. rewrite <- app_assoc, (trimStart_allWS _ _ Hw).
  destruct (trimStart s) as [|x r].
  - cbn [app]. now rewrite (trimStart_allWS_nil _ H2).
  - cbn [app startsWithWS] in *. cbn [trimStart]. rewrite Hr.
    change (x :: r ++ w2) with ((x :: r) ++ w2).
    now apply trimEnd_allWS.
Qed.

Lemma finalize_allWS w1 s w2 :
  forallb isWhiteSpace w1 = true -> forallb isWhiteSpace w2 = true ->
  finalize (w1 ++ s ++ w2) = finalize s.
Proof.
  intros H1 H2. unfold finalize.
  now rewrite !trim_replaceLF3, trim_allWS.
Qed.

Lemma container_finalized URL_href baseURI contents :
  finalize (domToMarkdown URL_href baseURI (ElementNode (js "DIV") [] contents))
  = finalize (childrenContent URL_href baseURI contents).
Proof.
  rewrite convert_element.
  change (toLowerCase (js "DIV")) with (js "div"). rewrite rule_div.
  now apply finalize_allWS.
Qed.

(** X4: the [div] that holds the cloned selection leaves no trace: with
    at least one range, the function returns the finalized conversion of
    the nodes of the first range, one after the other; the other ranges
    are not looked at. *)
Theorem getMarkdownFromSelection_contents URL_href baseURI contents ranges :
  getMarkdownFromSelection URL_href baseURI (contents :: ranges)
  = Some (finalize (childrenContent URL_href baseURI contents)).
Proof.
  unfold getMarkdownFromSelection. f_equal. apply container_finalized.
Qed.

(** ** The converter as a function of the tree *)

Section TreeFacts.

Variable URL_href : jsstring -> jsstring -> option jsstring.
Variable baseURI : jsstring.

#[local] Abbreviation convert := (domToMarkdown URL_href baseURI).
#[local] Abbreviation content := (childrenContent URL_href baseURI).
#[local] Abbreviation rule := (tagRule URL_href baseURI).

Lemma content_map (f : Node -> Node) childNodes :
  Forall (fun n => convert (f n) = convert n) childNodes ->
  content (map f childNodes) = content childNodes.
Proof.
  unfold childrenContent.
  induction 1 as [|x l Hx _ IH]; cbn [map flat_map]; [reflexivity|].
  now rewrite Hx, IH.
Qed.

(** *** Letter case of the tag names *)

Lemma lowerUnit_idempotent c : lowerUnit (lowerUnit c) = lowerUnit c.
Proof.
  unfold lowerUnit.
  destruct ((65 <=? c) && (c <=? 90)) eqn:E; [|now rewrite E].
  apply andb_true_iff in E. destruct E as [E1 E2].
  apply N.leb_le in E1, E2.
  replace (c + 32 <=? 90) with false by (symmetry; apply N.leb_gt; lia).
  now rewrite andb_false_r.
Qed.

Lemma toLowerCase_idempotent s : toLowerCase (toLowerCase s) = toLowerCase s.
Proof.
  unfold toLowerCase. rewrite map_map. apply map_ext.
  apply lowerUnit_idempotent.
Qed.

(** X6: the letter case of the tag names has no bearing on the
    conversion, anywhere in the tree: the tree with all its tag names in
    lower case converts to the same string. *)
Theorem convert_lowerTags node : convert (lowerTags node) = convert node.
Proof.
  induction node as [t|tagName attributes childNodes IH|k] using Node_ind;
    try reflexivity.
  cbn [lowerTags]. rewrite !convert_element, toLowerCase_idempotent.
  now rewrite (content_map _ _ IH).
Qed.

(** *** Text nodes in pieces *)

Lemma content_mergeText l : content (mergeText l) = content l.
Proof.
  unfold childrenContent. induction l as [|x l IH]; [reflexivity|].
  destruct x as [s|t a ch|k]; cbn [mergeText flat_map].
  - rewrite <- IH.
    destruct (mergeText l) as [|[s'|t a ch|k] rest]; cbn [flat_map domToMarkdown].
    + destruct s; reflexivity.
    + now rewrite app_assoc.
    + destruct s; reflexivity.
    + destruct s; reflexivity.
  - now rewrite IH.
  - now rewrite IH.
Qed.

(** X7: how the text is cut into text nodes has no bearing on the
    conversion: joining the text nodes that follow one another and
    removing the empty ones, among the children of every element, gives a
    tree that converts to the same string. *)
Theorem convert_normalize node : convert (normalize node) = convert node.
Proof.
  induction node as [t|tagName attributes childNodes IH|k] using Node_ind;
    try reflexivity.
  cbn [normalize]. rewrite !convert_element, content_mergeText.
  now rewrite (content_map _ _ IH).
Qed.

(** *** Text that is kept *)









End TreeFacts.

(** *** The resolver *)

Lemma toAbsoluteUrl_agree U1 b1 U2 b2 v :
  (forall u, In u (reference v) -> U1 u b1 = U2 u b2) ->
  toAbsoluteUrl U1 b1 v = toAbsoluteUrl U2 b2 v.
Proof.
  destruct v as [[|c u]|]; try reflexivity.
  intros H. unfold toAbsoluteUrl. cbn [truthy negb].
  rewrite (H (c :: u)); [reflexivity | now left].
Qed.

Lemma rule_agree U1 b1 U2 b2 tagName attributes c :
  (forall u,
      In u (if streq tagName (js "a")
            then reference (getAttribute attributes (js "href"))
            else if streq tagName (js "img")
                 then reference (getAttribute attributes (js "src"))
                 else []) ->
      U1 u b1 = U2 u b2) ->
  tagRule U1 b1 tagName attributes c = tagRule U2 b2 tagName attributes c.
Proof.
  intros H. unfold tagRule.
  destruct (streq tagName (js "a")) eqn:Ea.
  - rewrite (toAbsoluteUrl_agree U1 b1 U2 b2 _ H). reflexivity.
  - destruct (streq tagName (js "img")) eqn:Ei.
    + rewrite (toAbsoluteUrl_agree U1 b1 U2 b2 _ H). reflexivity.
    + reflexivity.
Qed.

(** X5: the conversion depends on the resolver and on the base URL only
    through the [href] of the [a] elements and the [src] of the [img]
    elements of the tree: two resolvers, each with its base, that agree on
    these strings give the same conversion. *)
Theorem convert_agree U1 b1 U2 b2 node :
  (forall u, In u (references node) -> U1 u b1 = U2 u b2) ->
  domToMarkdown U1 b1 node = domToMarkdown U2 b2 node.
Proof.
  induction node as [t|tagName attributes childNodes IH|k] using Node_ind;
    [reflexivity | | reflexivity].
  cbn [references]. intros H. rewrite !convert_element.
  assert (Hc : childrenContent U1 b1 childNodes
               = childrenContent U2 b2 childNodes).
  { unfold childrenContent.
    assert (Hch : forall u, In u (flat_map references childNodes) ->
                            U1 u b1 = U2 u b2)
      by (intros u Hu; apply H, in_or_app; now right).
    clear H. induction IH as [|x l Hx _ IHl]; cbn [flat_map] in *;
      [reflexivity|].
    rewrite Hx, IHl; [reflexivity | |];
      intros u Hu; apply Hch, in_or_app; auto. }
  rewrite Hc. apply rule_agree.
  intros u Hu. apply H, in_or_app. now left.
Qed.

Lemma convert_agree_witness :
  (forall u, In u (references note1) ->
             SimpleURL.href u pageBase = onlyGo u []) /\
  domToMarkdown SimpleURL.href pageBase note1 = domToMarkdown onlyGo [] note1.
Proof.
  assert (H : forall u, In u (references note1) ->
                        SimpleURL.href u pageBase = onlyGo u []).
  { intros u [<-|[]]. reflexivity. }
  split; [exact H|].
  exact (convert_agree SimpleURL.href pageBase onlyGo [] note1 H).
Defined.


(** [normalize] on a list of children with text in pieces. *)
Example normalize_pieces :
  normalize (ElementNode (js "P") []
               [TextNode (js "a"); TextNode []; TextNode (js "b");
                OtherNode 8; TextNode []; TextNode (js "c")])
  = ElementNode (js "P") []
      [TextNode (js "ab"); OtherNode 8; TextNode (js "c")].
Proof. reflexivity. Qed.

(** ** Runs of line feeds, wherever they are *)

(** X9: a maximal run of [n] line feeds, between two code units that are
    not line feeds, comes out as two line feeds when [n] is three or
    more and as it is otherwise; what comes before and after it is
    replaced on its own. *)
Theorem replaceLF3_maximal_run a x n c t :
  isLF x = false ->
  isLF c = false ->
  replaceLF3 (a ++ x :: repeat LF n ++ c :: t)
  = replaceLF3 a ++ x :: repeat LF (if (3 <=? n)%nat then 2 else n)
                 ++ c :: replaceLF3 t.
Proof.
  intros Hx Hc.
  rewrite replaceLF3_app by (cbn [leadingLF]; now rewrite Hx).
  rewrite replaceLF3_cons, Hx. cbn [andb].
  now rewrite replaceLF3_run.
Qed.

Lemma replaceLF3_maximal_run_witness :
  isLF 97 = false /\ isLF 98 = false /\
  replaceLF3 (js "x" ++ 97 :: repeat LF 5 ++ 98 :: js "y")
  = replaceLF3 (js "x") ++ 97 :: repeat LF 2 ++ 98 :: replaceLF3 (js "y").
Proof.
  split; [reflexivity|]. split; [reflexivity|].
  apply (replaceLF3_maximal_run (js "x") 97 5 98 (js "y")); reflexivity.
Defined.

(** ** File names *)

Lemma replaceUnsafe_cons c t :
  replaceUnsafe (c :: t) =
  if isUnsafe c then underscore :: replaceUnsafe (skipUnsafe t)
  else c :: replaceUnsafe t.
Proof. simp replaceUnsafe. now destruct (isUnsafe c). Qed.

Lemma skipUnsafe_length s : (List.length (skipUnsafe s) <= List.length s)%nat.
Proof.
  induction s as [|c t IH]; cbn [skipUnsafe]; [lia|].
  destruct (isUnsafe c); cbn [List.length]; lia.
Qed.

(** Induction along the scan of the replace. *)
Lemma replaceUnsafe_scan (P : list N -> Prop) :
  P [] ->
  (forall c t, isUnsafe c = true -> P (skipUnsafe t) -> P (c :: t)) ->
  (forall c t, isUnsafe c = false -> P t -> P (c :: t)) ->
  forall s : list N, P s.
Proof.
  intros Hnil Hrun Hcopy s.
  assert (H : forall n s, (List.length s < n)%nat -> P s).
  { clear s. induction n as [|n IH]; intros s Hs; [lia|].
    destruct s as [|c t]; [exact Hnil|].
    cbn [List.length] in Hs.
    destruct (isUnsafe c) eqn:E.
    - apply Hrun; [exact E|]. apply IH.
      pose proof (skipUnsafe_length t).
      unfold jsstring, unit16 in *. lia.
    - apply Hcopy; [exact E|]. apply IH. lia. }
  apply (H (S (List.length s))). lia.
Qed.

Lemma replaceUnsafe_safe s : safeName (replaceUnsafe s) = true.
Proof.
  unfold safeName.
  induction s as [|c t E IH|c t E IH] using replaceUnsafe_scan;
    rewrite ?replaceUnsafe_cons, ?E; cbn [forallb].
  - reflexivity.
  - exact IH.
  - now rewrite E, IH.
Qed.

Lemma replaceUnsafe_length s :
  (List.length (replaceUnsafe s) <= List.length s)%nat.
Proof.
  induction s as [|c t E IH|c t E IH] using replaceUnsafe_scan;
    rewrite ?replaceUnsafe_cons, ?E; cbn [List.length].
  - change (0 <= 0)%nat. lia.
  - pose proof (skipUnsafe_length t). unfold jsstring, unit16 in *. lia.
  - unfold jsstring, unit16 in *. lia.
Qed.

Lemma replaceUnsafe_fixed s : safeName s = true -> replaceUnsafe s = s.
Proof.
  unfold safeName. induction s as [|c t IH]; [reflexivity|].
  cbn [forallb]. intros H. apply andb_true_iff in H. destruct H as [Hc Ht].
  apply negb_true_iff in Hc. rewrite replaceUnsafe_cons, Hc, (IH Ht).
  reflexivity.
Qed.

Lemma safeName_firstn n s : safeName s = true -> safeName (firstn n s) = true.
Proof.
  unfold safeName. revert n. induction s as [|c t IH]; intros [|n];
    cbn [firstn forallb]; try reflexivity.
  intros H. apply andb_true_iff in H. destruct H as [Hc Ht].
  now rewrite Hc, IH.
Qed.

Lemma safeName_app a b : safeName (a ++ b) = safeName a && safeName b.
Proof. apply forallb_app. Qed.

Lemma sanitizeFilename_firstn name :
  sanitizeFilename name = firstn 80 (replaceUnsafe name).
Proof. reflexivity. Qed.

Lemma sanitizeFilename_safeName name : safeName (sanitizeFilename name) = true.
Proof.
  rewrite sanitizeFilename_firstn. apply safeName_firstn, replaceUnsafe_safe.
Qed.

Lemma sanitizeFilename_length name :
  (List.length (sanitizeFilename name) <= 80)%nat.
Proof. rewrite sanitizeFilename_firstn. apply firstn_le_length. Qed.

(** X10: a sanitized name has no unsafe code unit, at most 80 code units,
    and never more than the name it comes from. *)
Theorem sanitizeFilename_safe (name : jsstring) :
  safeName (sanitizeFilename name) = true /\
  (List.length (sanitizeFilename name) <= 80)%nat /\
  (List.length (sanitizeFilename name) <= List.length name)%nat.
Proof.
  split; [apply sanitizeFilename_safeName|].
  split; [apply sanitizeFilename_length|].
  rewrite sanitizeFilename_firstn, length_firstn.
  pose proof (replaceUnsafe_length name). lia.
Qed.

(** X11: the names that [sanitizeFilename] leaves as they are are the
    names of at most 80 code units, none of them unsafe. *)
Theorem sanitizeFilename_fixed_points (name : jsstring) :
  sanitizeFilename name = name <->
  safeName name = true /\ (List.length name <= 80)%nat.
Proof.
  split.
  - intros H. rewrite <- H. split;
      [apply sanitizeFilename_safeName | apply sanitizeFilename_length].
  - intros [Hs Hl]. rewrite sanitizeFilename_firstn, (replaceUnsafe_fixed _ Hs).
    now apply firstn_all2.
Qed.

(** X12: [sanitizeFilename] is idempotent. *)
Theorem sanitizeFilename_idempotent (name : jsstring) :
  sanitizeFilename (sanitizeFilename name) = sanitizeFilename name.
Proof.
  rewrite (sanitizeFilename_firstn (sanitizeFilename name)).
  rewrite (replaceUnsafe_fixed _ (sanitizeFilename_safeName name)).
  apply firstn_all2, sanitizeFilename_length.
Qed.

Lemma skipUnsafe_run run c t :
  forallb isUnsafe run = true -> isUnsafe c = false ->
  skipUnsafe (run ++ c :: t) = c :: t.
Proof.
  intros Hr Hc. induction run as [|r run IH]; cbn [app skipUnsafe].
  - now rewrite Hc.
  - cbn [forallb] in Hr. apply andb_true_iff in Hr. destruct Hr as [H1 H2].
    rewrite H1. now apply IH.
Qed.

(** X13: a whole run of unsafe code units, however long, is replaced by
    one low line; the code unit after it is copied. *)
Theorem replaceUnsafe_run r run c t :
  forallb isUnsafe (r :: run) = true ->
  isUnsafe c = false ->
  replaceUnsafe (r :: run ++ c :: t) = underscore :: c :: replaceUnsafe t.
Proof.
  intros Hr Hc. cbn [forallb] in Hr.
  apply andb_true_iff in Hr. destruct Hr as [H1 H2].
  rewrite replaceUnsafe_cons, H1, (skipUnsafe_run _ _ _ H2 Hc).
  now rewrite replaceUnsafe_cons, Hc.
Qed.

Lemma replaceUnsafe_run_witness :
  forallb isUnsafe (58 :: js "//") = true /\
  isUnsafe 119 = false /\
  replaceUnsafe (58 :: js "//" ++ 119 :: js "ww")
  = underscore :: 119 :: replaceUnsafe (js "ww").
Proof.
  split; [reflexivity|]. split; [reflexivity|].
  apply (replaceUnsafe_run 58 (js "//") 119 (js "ww")); reflexivity.
Defined.

(** ** The time stamp *)

Lemma find_filter {A} (f g : A -> bool) l :
  (forall x, f x = true -> g x = true) ->
  find f (filter g l) = find f l.
Proof.
  intros H. induction l as [|x l IH]; [reflexivity|].
  cbn [filter find]. destruct (g x) eqn:Eg.
  - cbn [find]. now rewrite IH.
  - destruct (f x) eqn:Ef; [|exact IH].
    rewrite (H x Ef) in Eg. discriminate.
Qed.

Lemma getVal_timeFields parts t :
  timeField t = true ->
  getVal (filter (fun p => timeField (fst p)) parts) t = getVal parts t.
Proof.
  intros Ht. unfold getVal. rewrite find_filter; [reflexivity|].
  intros p Hp. apply streq_iff in Hp. now rewrite Hp.
Qed.

(** X14: the result of [getBeijingTime] depends only on the parts of the
    six types that it reads: the other parts that the formatter gives,
    the separators, can be left out. *)
Theorem getBeijingTime_timeFields parts :
  getBeijingTime (filter (fun p => timeField (fst p)) parts)
  = getBeijingTime parts.
Proof.
  unfold getBeijingTime. now rewrite !getVal_timeFields by reflexivity.
Qed.

Lemma getBeijingTime_Some parts timeData :
  getBeijingTime parts = Some timeData ->
  exists year month day hour minute second,
    getVal parts (js "year") = Some year /\
    getVal parts (js "month") = Some month /\
    getVal parts (js "day") = Some day /\
    getVal parts (js "hour") = Some hour /\
    getVal parts (js "minute") = Some minute /\
    getVal parts (js "second") = Some second /\
    file timeData = year ++ month ++ day ++ js "-" ++ hour ++ minute ++ second.
Proof.
  unfold getBeijingTime.
  destruct (getVal parts (js "year")) as [year|]; [|discriminate].
  destruct (getVal parts (js "month")) as [month|]; [|discriminate].
  destruct (getVal parts (js "day")) as [day|]; [|discriminate].
  destruct (getVal parts (js "hour")) as [hour|]; [|discriminate].
  destruct (getVal parts (js "minute")) as [minute|]; [|discriminate].
  destruct (getVal parts (js "second")) as [second|]; [|discriminate].
  intros H. injection H as <-.
  exists year, month, day, hour, minute, second. repeat split.
Qed.

(** ** The data URL *)

Lemma fold_left_snoc {A B} (f : A -> B) l (init : list B) :
  fold_left (fun acc x => acc ++ [f x]) l init = init ++ map f l.
Proof.
  revert init. induction l as [|x l IH]; intros init; cbn [fold_left map].
  - now rewrite app_nil_r.
  - now rewrite IH, <- app_assoc.
Qed.

Lemma bytes_below_256 (data : list Byte.byte) :
  forallb (fun c => c <=? 255) (map Byte.to_N data) = true.
Proof.
  induction data as [|b data IH]; [reflexivity|].
  cbn [map forallb]. rewrite IH, andb_true_r.
  apply N.leb_le. pose proof (Byte.to_N_bounded b). lia.
Qed.

Lemma createDataUrl_total TextEncoder_encode btoa content :
  (forall s, forallb (fun c => c <=? 255) s = true -> btoa s <> None) ->
  exists base64,
    btoa (map Byte.to_N (TextEncoder_encode content)) = Some base64 /\
    createDataUrl TextEncoder_encode btoa content
    = Some (js "data:text/markdown;charset=utf-8;base64," ++ base64).
Proof.
  intros Hbtoa. unfold createDataUrl. rewrite fold_left_snoc. cbn [app].
  pose proof (Hbtoa _ (bytes_below_256 (TextEncoder_encode content))) as H.
  destruct (btoa (map Byte.to_N (TextEncoder_encode content))) as [b|];
    [|contradiction].
  now exists b.
Qed.

(** X15: [createDataUrl] never passes to [btoa] a code unit above 255, so
    with a [btoa] that accepts every string of such code units it does
    not throw, whatever the content: it returns the prefix of the data
    URL followed by what [btoa] makes of the encoded bytes. *)
Theorem createDataUrl_returns TextEncoder_encode btoa content :
  (forall s, forallb (fun c => c <=? 255) s = true -> btoa s <> None) ->
  exists base64,
    btoa (map Byte.to_N (TextEncoder_encode content)) = Some base64 /\
    createDataUrl TextEncoder_encode btoa content
    = Some (js "data:text/markdown;charset=utf-8;base64," ++ base64).
Proof. apply createDataUrl_total. Qed.

Lemma btoa_accepts_bytes s :
  forallb (fun c => c <=? 255) s = true -> SimplePlatform.btoa s <> None.
Proof. intros H. unfold SimplePlatform.btoa. now rewrite H. Qed.

Lemma createDataUrl_returns_witness :
  (forall s, forallb (fun c => c <=? 255) s = true ->
             SimplePlatform.btoa s <> None) /\
  exists base64,
    SimplePlatform.btoa
      (map Byte.to_N (SimplePlatform.encode [104; 233; 8364])) = Some base64 /\
    createDataUrl SimplePlatform.encode SimplePlatform.btoa [104; 233; 8364]
    = Some (js "data:text/markdown;charset=utf-8;base64," ++ base64).
Proof.
  split; [exact btoa_accepts_bytes|].
  exact (createDataUrl_returns SimplePlatform.encode SimplePlatform.btoa
           [104; 233; 8364] btoa_accepts_bytes).
Defined.

Example createDataUrl_hi :
  createDataUrl SimplePlatform.encode SimplePlatform.btoa (js "hi")
  = Some (js "data:text/markdown;charset=utf-8;base64,aGk=").
Proof. vm_compute. reflexivity. Qed.

(** ** The click listener *)

Lemma getVal_safe parts t v :
  forallb (fun p => negb (timeField (fst p)) || safeName (snd p)) parts = true ->
  timeField t = true ->
  getVal parts t = Some v ->
  safeName v = true.
Proof.
  intros Hparts Ht. unfold getVal.
  destruct (find (fun p => streq (fst p) t) parts) as [p|] eqn:E;
    [|discriminate].
  intros H. injection H as <-.
  apply find_some in E. destruct E as [Hin Hp].
  apply streq_iff in Hp. rewrite forallb_forall in Hparts.
  specialize (Hparts p Hin). rewrite Hp, Ht in Hparts. exact Hparts.
Qed.

Lemma safeName_cons c s :
  safeName (c :: s) = negb (isUnsafe c) && safeName s.
Proof. reflexivity. Qed.

Lemma startsWith_app p s : startsWith (p ++ s) p = true.
Proof.
  induction p as [|c p IH]; cbn [app startsWith].
  - now destruct s.
  - now rewrite N.eqb_refl, IH.
Qed.

(** X16: whatever the page, the selection and the outcome of the
    injection, a download that the listener asks for has a file name
    without unsafe code units that ends in [.md], and a data URL of
    Markdown, provided the values of the time fields have no unsafe code
    unit; the separators of the formatter do not get into the name. *)
Theorem onClicked_download URL_hostname parts TextEncoder_encode btoa
        info tab injection options :
  forallb (fun p => negb (timeField (fst p)) || safeName (snd p)) parts = true ->
  onClicked URL_hostname parts TextEncoder_encode btoa info tab injection
  = Downloaded options ->
  safeName (filename options) = true /\
  (exists stem, filename options = stem ++ js ".md") /\
  startsWith (url options) (js "data:text/markdown;charset=utf-8;base64,") = true.
Proof.
  intros Hparts. unfold onClicked.
  destruct (negb (streq (menuItemId info) (js "save-selection-md")));
    [discriminate|].
  destruct tab as [tab|]; [|discriminate].
  destruct (getBeijingTime parts) as [timeData|] eqn:Et; [|discriminate].
  unfold createDataUrl.
  match goal with
  | |- context [btoa ?b] => destruct (btoa b) as [base64|]; [|discriminate]
  end.
  intros H. injection H as <-. cbn [filename url].
  split; [|split].
  - apply getBeijingTime_Some in Et.
    destruct Et as (y & mo & d & h & mi & sec & Hy & Hmo & Hd & Hh & Hmi & Hs & ->).
    repeat rewrite ?safeName_app, ?safeName_cons.
    rewrite sanitizeFilename_safeName.
    rewrite (getVal_safe _ (js "year") _ Hparts eq_refl Hy).
    rewrite (getVal_safe _ (js "month") _ Hparts eq_refl Hmo).
    rewrite (getVal_safe _ (js "day") _ Hparts eq_refl Hd).
    rewrite (getVal_safe _ (js "hour") _ Hparts eq_refl Hh).
    rewrite (getVal_safe _ (js "minute") _ Hparts eq_refl Hmi).
    rewrite (getVal_safe _ (js "second") _ Hparts eq_refl Hs).
    reflexivity.
  - exists (sanitizeFilename (extractDomain URL_hostname (orEmpty (tabUrl tab)))
              ++ js "_" ++ file timeData).
    repeat rewrite <- app_assoc. reflexivity.
  - exact (startsWith_app (js "data:text/markdown;charset=utf-8;base64,") base64).
Qed.

Lemma onClicked_download_witness :
  forallb (fun p => negb (timeField (fst p)) || safeName (snd p))
          SimplePlatform.parts = true /\
  onClicked SimplePlatform.hostname SimplePlatform.parts
            SimplePlatform.encode SimplePlatform.btoa
            sampleInfo (Some sampleTab) sampleInjection
  = Downloaded sampleOptions /\
  safeName (filename sampleOptions) = true /\
  (exists stem, filename sampleOptions = stem ++ js ".md") /\
  startsWith (url sampleOptions)
             (js "data:text/markdown;charset=utf-8;base64,") = true.
Proof.
  split; [reflexivity|]. split; [vm_compute; reflexivity|].
  apply (onClicked_download SimplePlatform.hostname SimplePlatform.parts
           SimplePlatform.encode SimplePlatform.btoa
           sampleInfo (Some sampleTab) sampleInjection sampleOptions).
  - reflexivity.
  - vm_compute. reflexivity.
Defined.

(** X17: a click on the menu entry, in a tab, ends in a download whatever
    the outcome of the injection, a rejection included, as long as the
    formatter gives the six time fields and [btoa] accepts every string
    of code units up to 255. *)
Theorem onClicked_downloads URL_hostname parts TextEncoder_encode btoa
        info tab injection :
  (forall s, forallb (fun c => c <=? 255) s = true -> btoa s <> None) ->
  menuItemId info = js "save-selection-md" ->
  getBeijingTime parts <> None ->
  exists options,
    onClicked URL_hostname parts TextEncoder_encode btoa info (Some tab)
              injection
    = Downloaded options.
Proof.
  intros Hbtoa Hid Htime. unfold onClicked. rewrite Hid.
  change (negb (streq (js "save-selection-md") (js "save-selection-md")))
    with false. cbv iota.
  destruct (getBeijingTime parts) as [timeData|]; [|contradiction].
  cbv zeta.
  match goal with
  | |- context [createDataUrl ?e ?b ?c] =>
      destruct (createDataUrl_total e b c Hbtoa) as (base64 & _ & ->)
  end.
  eexists. reflexivity.
Qed.

Lemma onClicked_downloads_witness :
  (forall s, forallb (fun c => c <=? 255) s = true ->
             SimplePlatform.btoa s <> None) /\
  menuItemId sampleInfo = js "save-selection-md" /\
  getBeijingTime SimplePlatform.parts <> None /\
  exists options,
    onClicked SimplePlatform.hostname SimplePlatform.parts
              SimplePlatform.encode SimplePlatform.btoa
              sampleInfo (Some sampleTab) Rejected
    = Downloaded options.
Proof.
  assert (Ht : getBeijingTime SimplePlatform.parts <> None)
    by (vm_compute; discriminate).
  split; [exact btoa_accepts_bytes|]. split; [reflexivity|].
  split; [exact Ht|].
  exact (onClicked_downloads SimplePlatform.hostname SimplePlatform.parts
           SimplePlatform.encode SimplePlatform.btoa
           sampleInfo sampleTab Rejected btoa_accepts_bytes eq_refl Ht).
Defined.

(** X18: the content that is saved is the Markdown of the selection
    exactly when the selection has a range and the nodes of that range
    convert to something that is not all white space; then it is the
    finalized conversion of these nodes.  In every other case, and when
    the injection is rejected, it is the plain text of the selection, or
    the empty string when there is none. *)
Theorem savedContent_injected URL_href baseURI info selection :
  savedContent info (injected URL_href baseURI selection)
  = match selection with
    | [] => orEmpty (selectionText info)
    | contents :: _ =>
        if visible (childrenContent URL_href baseURI contents)
        then finalize (childrenContent URL_href baseURI contents)
        else orEmpty (selectionText info)
    end /\
  savedContent info Rejected = orEmpty (selectionText info).
Proof.
  split; [|reflexivity].
  unfold savedContent, injected.
  destruct selection as [|contents ranges]; [reflexivity|].
  unfold getMarkdownFromSelection. rewrite container_finalized.
  cbn [truthyValue orEmpty].
  destruct (visible (childrenContent URL_href baseURI contents)) eqn:V.
  - destruct (finalize (childrenContent URL_href baseURI contents)) eqn:F;
      [|reflexivity].
    apply finalize_empty in F. congruence.
  - apply finalize_empty in V. now rewrite V.
Qed.
